(** * FIFI scoring and sizing engine: a shallow embedding and its properties

    The development follows the Python package [fifi_app]:

    - [Py]         the fragment of the Python runtime the engine relies on
                   (exceptions, float division, the builtins [min] and [max]);
    - [Config]     [config.py]: [WeightConfig], [RiskConfig], [AppConfig];
    - [Risk]       [risk.py]: [compute_position_size];
    - [Fundamental], [Sentiment], [Technical], [Scoring]: the scorers;
    - [Binary64]   the scalar functions once more, over IEEE 754 doubles.

    Python floats are modelled by exact rationals ([Q]); results are compared
    with [==].  Cells of pandas series additionally carry NaN and the two
    infinities (module [Technical]), because the source relies on them. *)

From Stdlib Require Import QArith Qabs Qminmax Lqa.
From Stdlib Require Import List Bool Arith Lia ZArith String Floats Uint63.
From Stdlib Require Import Sorted Permutation.
Import ListNotations.

Open Scope Q_scope.

(** * The Python runtime fragment *)

Module Py.

(** Exceptions the engine can raise. *)
Inductive exn : Type :=
| ValueError
| ZeroDivisionError
| IndexError.

(** A call either returns a value or raises. *)
Inductive result (A : Type) : Type :=
| Ok (a : A)
| Raise (e : exn).

Arguments Ok {A} a.
Arguments Raise {A} e.

Definition bind {A B : Type} (m : result A) (k : A -> result B) : result B :=
  match m with
  | Ok a => k a
  | Raise e => Raise e
  end.

(** [a < b] on floats. *)
Definition Qltb (a b : Q) : bool := negb (Qle_bool b a).

(** [a / b] on Python floats: raises [ZeroDivisionError] on a zero divisor. *)
Definition div (a b : Q) : result Q :=
  if Qeq_bool b 0 then Raise ZeroDivisionError else Ok (a / b).

(** The builtin [min(a, b)]: the first argument unless the second is smaller. *)
Definition min (a b : Q) : Q := if Qltb b a then b else a.

(** The builtin [max(a, b)]: the first argument unless the second is greater. *)
Definition max (a b : Q) : Q := if Qltb a b then b else a.

End Py.

Notation "x <- m ;; k" := (Py.bind m (fun x => k))
  (at level 61, m at next level, right associativity).

(** * config.py *)

Module Config.

Record WeightConfig : Type := {
  technical : Q;
  fundamental : Q;
  sentiment : Q
}.

Record RiskConfig : Type := {
  max_position_size_pct : Q;
  max_daily_loss_pct : Q;
  stop_loss_pct : Q;
  take_profit_pct : Q
}.

(** The two parts of [AppConfig] the engine reads. *)
Record AppConfig : Type := {
  weights : WeightConfig;
  risk : RiskConfig
}.

(** [Field(ge=0.0, le=1.0)]. *)
Definition in_unit (v : Q) : bool := Qle_bool 0 v && Qle_bool v 1.

(** [WeightConfig._ensure_total]: the validator attached to [sentiment].
    [values] holds the fields validated before it; a field that failed its
    own constraint is absent and read as [0.0]. *)
Definition _ensure_total (v : Q) (values : option Q * option Q) : Py.result Q :=
  let total := v + match fst values with Some t => t | None => 0 end
                 + match snd values with Some f => f | None => 0 end in
  if Py.Qltb (1 # 1000000) (Qabs (total - 1)) then Py.Raise Py.ValueError
  else Py.Ok v.

(** Construction of a [WeightConfig] by the configuration loader: the field
    constraints, then the validator. *)
Definition make_WeightConfig (t f s : Q) : Py.result WeightConfig :=
  let vt := if in_unit t then Some t else None in
  let vf := if in_unit f then Some f else None in
  if in_unit s then
    v <- _ensure_total s (vt, vf) ;;
    match vt, vf with
    | Some t', Some f' =>
        Py.Ok {| technical := t'; fundamental := f'; sentiment := v |}
    | _, _ => Py.Raise Py.ValueError
    end
  else Py.Raise Py.ValueError.

End Config.

(** * risk.py *)

Module Risk.
Import Config.

Record PositionSizingResult : Type := {
  capital_at_risk : Q;
  position_size : Q;
  stop_loss_price : Q;
  take_profit_price : Q
}.

Definition compute_position_size (capital price : Q) (config : RiskConfig)
  : Py.result PositionSizingResult :=
  let capital_at_risk := capital * max_position_size_pct config in
  let stop_loss_price := price * (1 - stop_loss_pct config) in
  let take_profit_price := price * (1 + take_profit_pct config) in
  let risk_per_unit := price - stop_loss_price in
  if Qle_bool risk_per_unit 0 then Py.Raise Py.ValueError
  else
    by_risk <- Py.div capital_at_risk risk_per_unit ;;
    by_capital <- Py.div capital price ;;
    let position_size := Py.min by_risk by_capital in
    Py.Ok {| capital_at_risk := capital_at_risk;
             position_size := position_size;
             stop_loss_price := stop_loss_price;
             take_profit_price := take_profit_price |}.

End Risk.

(** * fundamental.py *)

Module Fundamental.

Record FundamentalSnapshot : Type := {
  symbol : string;
  pe_ratio : option Q;
  peg_ratio : option Q;
  debt_to_equity : option Q;
  revenue_growth_pct : option Q;
  earnings_growth_pct : option Q
}.

(** The local closure [add] of [score_fundamentals]; the two [nonlocal]
    accumulators [(score, weight)] are threaded explicitly. *)
Definition add (acc : Q * Q) (metric : option Q) (ideal tolerance : Q)
  : Py.result (Q * Q) :=
  let '(score, weight) := acc in
  match metric with
  | None => Py.Ok (score, weight)
  | Some m =>
      q <- Py.div (Qabs (m - ideal)) tolerance ;;
      let deviation := Py.max 0 (1 - q) in
      Py.Ok (score + deviation, weight + 1)
  end.

(** One of the two growth blocks: [score += min(1.0, growth / 20.0)]. *)
Definition add_growth (acc : Q * Q) (growth : option Q) : Q * Q :=
  let '(score, weight) := acc in
  match growth with
  | None => (score, weight)
  | Some g => (score + Py.min 1 (g / 20), weight + 1)
  end.

(** The accumulators after the five metrics have been visited. *)
Definition accumulate (snapshot : FundamentalSnapshot) : Py.result (Q * Q) :=
  acc <- add (0, 0) (pe_ratio snapshot) 20 15 ;;
  acc <- add acc (peg_ratio snapshot) 1 1 ;;
  acc <- add acc (debt_to_equity snapshot) 0.5 0.7 ;;
  let acc := add_growth acc (revenue_growth_pct snapshot) in
  let acc := add_growth acc (earnings_growth_pct snapshot) in
  Py.Ok acc.

(** The warning logged on the neutral path has no effect on the result. *)
Definition score_fundamentals (snapshot : FundamentalSnapshot) : Py.result Q :=
  acc <- accumulate snapshot ;;
  let '(score, weight) := acc in
  if Qeq_bool weight 0 then Py.Ok 0.5
  else
    q <- Py.div score weight ;;
    Py.Ok (Py.max 0 (Py.min 1 q)).

End Fundamental.

(** * sentiment.py *)

Module Sentiment.

Record NewsItem : Type := {
  title : string;
  summary : string;
  sentiment : Q;
  source : string;
  url : string
}.

(** The builtin [sum] over a list of floats. *)
Definition sum (xs : list Q) : Q := fold_left Qplus xs 0.

(** The builtin [len], as a float operand. *)
Definition len {A : Type} (xs : list A) : Q := inject_Z (Z.of_nat (List.length xs)).

Definition aggregate_sentiment (items : list NewsItem) : Py.result Q :=
  match items with
  | [] => Py.Ok 0.5
  | _ :: _ =>
      let normalized := map (fun item => (sentiment item + 1) / 2) items in
      Py.div (sum normalized) (len normalized)
  end.

End Sentiment.

(** * technical.py *)

Module Technical.

(** ** numpy float64 cells

    A finite cell holds an exact rational; NaN and the infinities follow
    IEEE 754.  The sign of a zero is not tracked: a positive value divided by
    a zero gives [PosInf], and either infinity gives the same quotients and
    sums wherever the engine uses them. *)
Inductive cell : Type :=
| NaN
| NegInf
| PosInf
| Fin (q : Q).

Definition neg (a : cell) : cell :=
  match a with
  | NaN => NaN
  | NegInf => PosInf
  | PosInf => NegInf
  | Fin q => Fin (- q)
  end.

Definition add (a b : cell) : cell :=
  match a, b with
  | NaN, _ | _, NaN => NaN
  | PosInf, NegInf | NegInf, PosInf => NaN
  | PosInf, _ | _, PosInf => PosInf
  | NegInf, _ | _, NegInf => NegInf
  | Fin x, Fin y => Fin (x + y)
  end.

Definition sub (a b : cell) : cell := add a (neg b).

(** An infinity scaled by the sign of a finite factor. *)
Definition scale_inf (inf : cell) (q : Q) : cell :=
  match q ?= 0 with
  | Eq => NaN
  | Gt => inf
  | Lt => neg inf
  end.

Definition mul (a b : cell) : cell :=
  match a, b with
  | NaN, _ | _, NaN => NaN
  | Fin x, Fin y => Fin (x * y)
  | Fin x, inf => scale_inf inf x
  | inf, Fin y => scale_inf inf y
  | PosInf, PosInf | NegInf, NegInf => PosInf
  | PosInf, NegInf | NegInf, PosInf => NegInf
  end.

(** numpy division: no exception, a zero divisor gives an infinity or NaN. *)
Definition div (a b : cell) : cell :=
  match a, b with
  | NaN, _ | _, NaN => NaN
  | Fin x, Fin y =>
      if Qeq_bool y 0 then
        match x ?= 0 with
        | Eq => NaN
        | Gt => PosInf
        | Lt => NegInf
        end
      else Fin (x / y)
  | Fin _, _ => Fin 0
  | inf, Fin y => if Py.Qltb y 0 then neg inf else inf
  | _, _ => NaN
  end.

Definition ltb (a b : cell) : bool :=
  match a, b with
  | NaN, _ | _, NaN => false
  | _, NegInf | PosInf, _ => false
  | NegInf, _ | _, PosInf => true
  | Fin x, Fin y => Py.Qltb x y
  end.

Definition leb (a b : cell) : bool :=
  match a, b with
  | NaN, _ | _, NaN => false
  | NegInf, _ | _, PosInf => true
  | _, NegInf | PosInf, _ => false
  | Fin x, Fin y => Qle_bool x y
  end.

Definition eqb (a b : cell) : bool :=
  match a, b with
  | NegInf, NegInf | PosInf, PosInf => true
  | Fin x, Fin y => Qeq_bool x y
  | _, _ => false
  end.

(** [pd.notna]. *)
Definition notna (a : cell) : bool :=
  match a with
  | NaN => false
  | _ => true
  end.

(** The builtins [min] and [max] on cells, by the same rule as [Py.min] and
    [Py.max]: a comparison with NaN is false and keeps the first argument. *)
Definition pmin (a b : cell) : cell := if ltb b a then b else a.
Definition pmax (a b : cell) : cell := if ltb a b then b else a.

(** ** pandas series *)

Definition Series : Type := list cell.

(** [s.iloc[-1]]. *)
Definition iloc_last {A : Type} (s : list A) : Py.result A :=
  match rev s with
  | [] => Py.Raise Py.IndexError
  | x :: _ => Py.Ok x
  end.

Definition zip_with (f : cell -> cell -> cell) (a b : Series) : Series :=
  map (fun p => f (fst p) (snd p)) (combine a b).

(** [s.diff()]: NaN at the first row, then the step from the previous row. *)
Definition diff (s : Series) : Series :=
  match s with
  | [] => []
  | _ :: tl => NaN :: zip_with sub tl s
  end.

(** [s.clip(lower=lo)] and [s.clip(upper=hi)]; NaN is left in place. *)
Definition clip_lower (lo : Q) (s : Series) : Series :=
  map (fun x => if ltb x (Fin lo) then Fin lo else x) s.

Definition clip_upper (hi : Q) (s : Series) : Series :=
  map (fun x => if ltb (Fin hi) x then Fin hi else x) s.

(** [s.fillna(v)]. *)
Definition fillna (v : Q) (s : Series) : Series :=
  map (fun x => if notna x then x else Fin v) s.

(** The rows a rolling window of width [w] covers at row [i]: rows
    [i - w + 1 .. i], cut at the start of the series. *)
Definition window (w : nat) (s : Series) (i : nat) : Series :=
  firstn (i + 1 - (i + 1 - w)) (skipn (i + 1 - w) s).

(** The observations of a window: its cells that are not NaN. *)
Definition observations (win : Series) : list cell := filter notna win.

Definition total (obs : list cell) : cell := fold_left add obs (Fin 0).

Definition count (obs : list cell) : Q := inject_Z (Z.of_nat (List.length obs)).

(** Mean of a window, NaN below [min_periods] observations. *)
Definition window_mean (min_periods : nat) (win : Series) : cell :=
  let obs := observations win in
  if (List.length obs <? min_periods)%nat || (List.length obs =? 0)%nat then NaN
  else div (total obs) (Fin (count obs)).

(** [s.rolling(window=w, min_periods=m).mean()]. *)
Definition rolling_mean (w min_periods : nat) (s : Series) : Series :=
  map (fun i => window_mean min_periods (window w s i)) (seq 0 (List.length s)).

(** ** Price history *)

(** A row of the frame built by [to_dataframe] from a [PricePoint]. *)
Record PricePoint : Type := {
  timestamp : Z;
  open : Q;
  high : Q;
  low : Q;
  close : Q;
  volume : Q
}.

Definition DataFrame : Type := list PricePoint.

(** [df["close"]]. *)
Definition closes (df : DataFrame) : Series := map (fun p => Fin (close p)) df.

(** [df.empty]. *)
Definition empty (df : DataFrame) : bool :=
  match df with
  | [] => true
  | _ :: _ => false
  end.

(** ** Indicators *)

Definition moving_average (df : DataFrame) (w : nat) : Series :=
  rolling_mean w w (closes df).

(** The intermediate series of [relative_strength_index]: its locals [up],
    [down], [roll_up] and [roll_down]. *)
Definition up_moves (df : DataFrame) : Series := clip_lower 0 (diff (closes df)).

Definition down_moves (df : DataFrame) : Series :=
  map neg (clip_upper 0 (diff (closes df))).

Definition roll_up (df : DataFrame) (w : nat) : Series :=
  rolling_mean w w (up_moves df).

Definition roll_down (df : DataFrame) (w : nat) : Series :=
  rolling_mean w w (down_moves df).

Definition relative_strength_index (df : DataFrame) (w : nat) : Series :=
  let rs := zip_with div (roll_up df w) (roll_down df w) in
  let rsi := map (fun x => sub (Fin 100) (div (Fin 100) (add (Fin 1) x))) rs in
  fillna 50 rsi.

(** A row of the frame returned by [bollinger_bands]. *)
Record Bands : Type := {
  ma : cell;
  upper : cell;
  lower : cell
}.

Section WithSqrt.

(** The square root of the numeric library, on non-negative rationals. *)
Variable Qsqrt : Q -> Q.

Definition sqrt (a : cell) : cell :=
  match a with
  | NaN | NegInf => NaN
  | PosInf => PosInf
  | Fin q => if Py.Qltb q 0 then NaN else Fin (Qsqrt q)
  end.

(** Sample standard deviation of a window ([ddof=1]), NaN below
    [min_periods] observations or with a single observation. *)
Definition window_std (min_periods : nat) (win : Series) : cell :=
  let obs := observations win in
  if (List.length obs <? min_periods)%nat || (List.length obs <=? 1)%nat then NaN
  else
    let mean := div (total obs) (Fin (count obs)) in
    let ssqdm := total (map (fun x => mul (sub x mean) (sub x mean)) obs) in
    sqrt (div ssqdm (Fin (count obs - 1))).

(** [s.rolling(window=w, min_periods=m).std()]. *)
Definition rolling_std (w min_periods : nat) (s : Series) : Series :=
  map (fun i => window_std min_periods (window w s i)) (seq 0 (List.length s)).

Definition bollinger_bands (df : DataFrame) (w : nat) (num_std : Q)
  : list Bands :=
  let ma := moving_average df w in
  let std := rolling_std w w (closes df) in
  let upper := zip_with add ma (map (mul (Fin num_std)) std) in
  let lower := zip_with sub ma (map (mul (Fin num_std)) std) in
  map (fun r => {| ma := fst r; upper := fst (snd r); lower := snd (snd r) |})
      (combine ma (combine upper lower)).

(** The sub-score of the RSI band. *)
Definition rsi_band (rsi : cell) : Q :=
  if leb (Fin 40) rsi && leb rsi (Fin 60) then 0.5
  else if ltb rsi (Fin 30) then 0.8
  else if ltb (Fin 70) rsi then 0.2
  else 0.6.

(** The accumulators [(score, weight)] of [score_technical] after its three
    blocks, on a frame that is not empty. *)
Definition subscores (df : DataFrame) : Py.result (cell * Q) :=
  latest <- iloc_last df ;;
  ma_short <- iloc_last (moving_average df 20) ;;
  ma_long <- iloc_last (moving_average df 50) ;;
  rsi <- iloc_last (relative_strength_index df 14) ;;
  boll <- iloc_last (bollinger_bands df 20 2) ;;
  let score := Fin 0 in
  let weight := 0 in
  let '(score, weight) :=
    if notna ma_short && notna ma_long then
      let trend := if ltb ma_long ma_short then 1 else 0 in
      (add score (Fin trend), weight + 1)
    else (score, weight) in
  let '(score, weight) :=
    if notna rsi then (add score (Fin (rsi_band rsi)), weight + 1)
    else (score, weight) in
  let price := Fin (close latest) in
  let lower := lower boll in
  let upper := upper boll in
  let '(score, weight) :=
    if notna lower && notna upper && negb (eqb upper lower) then
      let position := div (sub price lower) (sub upper lower) in
      (add score (pmax (Fin 0) (pmin (Fin 1) (sub (Fin 1) position))), weight + 1)
    else (score, weight) in
  Py.Ok (score, weight).

Definition score_technical (df : DataFrame) : Py.result cell :=
  if empty df then Py.Ok (Fin 0.5)
  else
    acc <- subscores df ;;
    let '(score, weight) := acc in
    if Qeq_bool weight 0 then Py.Ok (Fin 0.5)
    else Py.Ok (pmax (Fin 0) (pmin (Fin 1) (div score (Fin weight)))).

End WithSqrt.

(** A rational approximation of the square root (Newton steps from [1]),
    to run the model; no property below depends on the choice. *)
Fixpoint newton (n : nat) (a x : Q) : Q :=
  match n with
  | O => x
  | S n' => newton n' a (Qred ((x + a / x) / 2))
  end.

Definition Qsqrt_approx (a : Q) : Q :=
  if Qeq_bool a 0 then 0 else newton 6 a 1.

End Technical.

(** * scoring.py *)

Module Scoring.

Record AnalysisResult : Type := {
  technical_score : Technical.cell;
  fundamental_score : Q;
  sentiment_score : Q;
  composite_score : Technical.cell
}.

Section WithSqrt.

Variable Qsqrt : Q -> Q.

Definition compute_scores
  (config : Config.AppConfig)
  (prices : Technical.DataFrame)
  (fundamentals : Fundamental.FundamentalSnapshot)
  (news : list Sentiment.NewsItem) : Py.result AnalysisResult :=
  technical <- Technical.score_technical Qsqrt prices ;;
  fundamental <- Fundamental.score_fundamentals fundamentals ;;
  sentiment <- Sentiment.aggregate_sentiment news ;;
  let weights := Config.weights config in
  let composite :=
    Technical.add
      (Technical.add
         (Technical.mul technical (Technical.Fin (Config.technical weights)))
         (Technical.Fin (fundamental * Config.fundamental weights)))
      (Technical.Fin (sentiment * Config.sentiment weights)) in
  Py.Ok {| technical_score := technical;
           fundamental_score := fundamental;
           sentiment_score := sentiment;
           composite_score := composite |}.

End WithSqrt.

End Scoring.

(** * The scalar functions over IEEE 754 doubles

    The position sizer, the fundamental scorer and the sentiment aggregator
    transcribed a second time, on the binary64 floats Python computes with,
    to evaluate the documented examples bit for bit. *)

Module Binary64.

Local Open Scope float_scope.

Record RiskConfig : Type := {
  max_position_size_pct : float;
  max_daily_loss_pct : float;
  stop_loss_pct : float;
  take_profit_pct : float
}.

Record PositionSizingResult : Type := {
  capital_at_risk : float;
  position_size : float;
  stop_loss_price : float;
  take_profit_price : float
}.

Definition div (a b : float) : Py.result float :=
  if b =? 0 then Py.Raise Py.ZeroDivisionError else Py.Ok (a / b).

Definition min (a b : float) : float := if b <? a then b else a.

Definition max (a b : float) : float := if a <? b then b else a.

Definition compute_position_size (capital price : float) (config : RiskConfig)
  : Py.result PositionSizingResult :=
  let capital_at_risk := capital * max_position_size_pct config in
  let stop_loss_price := price * (1 - stop_loss_pct config) in
  let take_profit_price := price * (1 + take_profit_pct config) in
  let risk_per_unit := price - stop_loss_price in
  if risk_per_unit <=? 0 then Py.Raise Py.ValueError
  else
    by_risk <- div capital_at_risk risk_per_unit ;;
    by_capital <- div capital price ;;
    let position_size := min by_risk by_capital in
    Py.Ok {| capital_at_risk := capital_at_risk;
             position_size := position_size;
             stop_loss_price := stop_loss_price;
             take_profit_price := take_profit_price |}.

Record FundamentalSnapshot : Type := {
  symbol : string;
  pe_ratio : option float;
  peg_ratio : option float;
  debt_to_equity : option float;
  revenue_growth_pct : option float;
  earnings_growth_pct : option float
}.

Definition add (acc : float * float) (metric : option float)
  (ideal tolerance : float) : Py.result (float * float) :=
  let '(score, weight) := acc in
  match metric with
  | None => Py.Ok (score, weight)
  | Some m =>
      q <- div (abs (m - ideal)) tolerance ;;
      let deviation := max 0 (1 - q) in
      Py.Ok (score + deviation, weight + 1)
  end.

Definition add_growth (acc : float * float) (growth : option float)
  : float * float :=
  let '(score, weight) := acc in
  match growth with
  | None => (score, weight)
  | Some g => (score + min 1 (g / 20), weight + 1)
  end.

(** [0x1.6666666666666p-1] is the double nearest 0.7. *)
Definition score_fundamentals (snapshot : FundamentalSnapshot)
  : Py.result float :=
  acc <- add (0, 0) (pe_ratio snapshot) 20 15 ;;
  acc <- add acc (peg_ratio snapshot) 1 1 ;;
  acc <- add acc (debt_to_equity snapshot) 0.5 0x1.6666666666666p-1 ;;
  let acc := add_growth acc (revenue_growth_pct snapshot) in
  let '(score, weight) := add_growth acc (earnings_growth_pct snapshot) in
  if weight =? 0 then Py.Ok 0.5
  else
    q <- div score weight ;;
    Py.Ok (max 0 (min 1 q)).

(** The aggregator, on the sentiment values of the items. *)
Definition aggregate_sentiment (sentiments : list float) : Py.result float :=
  match sentiments with
  | [] => Py.Ok 0.5
  | _ :: _ =>
      let normalized := map (fun s => (s + 1) / 2) sentiments in
      div (fold_left PrimFloat.add normalized 0)
          (of_uint63 (Uint63.of_Z (Z.of_nat (List.length normalized))))
  end.

End Binary64.

(** * The behaviour the specification words

    Definitions that follow the prose of the specification, to compare the
    embedded functions with. *)

Module Spec.

(** Arithmetic mean of a list. *)
Definition total (xs : list Q) : Q := fold_right Qplus 0 xs.

Definition size (xs : list Q) : Q := inject_Z (Z.of_nat (List.length xs)).

Definition mean (xs : list Q) : Q := total xs / size xs.

Definition clamp01 (x : Q) : Q := Qmax 0 (Qmin 1 x).

(** Contribution of a ratio: [max(0, 1 - |value - ideal| / tolerance)]. *)
Definition closeness (ideal tolerance value : Q) : Q :=
  Qmax 0 (1 - Qabs (value - ideal) / tolerance).

(** Contribution of a growth percentage: [min(1, growth / 20)], no floor. *)
Definition growth_term (growth : Q) : Q := Qmin 1 (growth / 20).

(** A metric contributes only when present. *)
Definition present (f : Q -> Q) (metric : option Q) : list Q :=
  match metric with
  | Some v => [f v]
  | None => []
  end.

Definition contributions (s : Fundamental.FundamentalSnapshot) : list Q :=
  present (closeness 20 15) (Fundamental.pe_ratio s) ++
  present (closeness 1 1) (Fundamental.peg_ratio s) ++
  present (closeness 0.5 0.7) (Fundamental.debt_to_equity s) ++
  present growth_term (Fundamental.revenue_growth_pct s) ++
  present growth_term (Fundamental.earnings_growth_pct s).

(** Average over the present metrics, clamped; neutral when none is. *)
Definition score_fundamentals (s : Fundamental.FundamentalSnapshot) : Q :=
  match contributions s with
  | [] => 0.5
  | cs => clamp01 (mean cs)
  end.

(** Mean of the sentiments mapped to [(s + 1) / 2]; neutral when empty. *)
Definition aggregate_sentiment (items : list Sentiment.NewsItem) : Q :=
  match items with
  | [] => 0.5
  | _ => mean (map (fun item => (Sentiment.sentiment item + 1) / 2) items)
  end.

(** The close of row [k]. *)
Definition close_at (df : Technical.DataFrame) (k : nat) : Q :=
  match nth_error df k with
  | Some p => Technical.close p
  | None => 0
  end.

(** Mean of the [w] closes that end at row [i]. *)
Definition trailing_mean (df : Technical.DataFrame) (w i : nat) : Q :=
  mean (map (close_at df) (seq (i + 1 - w) w)).

(** The weighted sum of the three scores. *)
Definition composite (w : Config.WeightConfig) (t f s : Q) : Q :=
  t * Config.technical w + f * Config.fundamental w + s * Config.sentiment w.

End Spec.

(** * Sample inputs *)

Module Examples.

(** A frame with the given closes, one row per day. *)
Definition frame (cs : list Q) : Technical.DataFrame :=
  map (fun r =>
         {| Technical.timestamp := Z.of_nat (fst r);
            Technical.open := snd r; Technical.high := snd r;
            Technical.low := snd r; Technical.close := snd r;
            Technical.volume := 1000 |})
      (combine (seq 0 (List.length cs)) cs).

(** [n] closes that rise by a half from 100. *)
Definition rising (n : nat) : list Q :=
  map (fun d => 100 + inject_Z (Z.of_nat d) * 0.5) (seq 0 n).

Definition default_config : Config.AppConfig :=
  {| Config.weights :=
       {| Config.technical := 0.6; Config.fundamental := 0.25;
          Config.sentiment := 0.15 |};
     Config.risk :=
       {| Config.max_position_size_pct := 0.05;
          Config.max_daily_loss_pct := 0.02;
          Config.stop_loss_pct := 0.03;
          Config.take_profit_pct := 0.06 |} |}.

Definition derived_fundamentals : Fundamental.FundamentalSnapshot :=
  {| Fundamental.symbol := "AAPL";
     Fundamental.pe_ratio := Some 20;
     Fundamental.peg_ratio := Some 1.1;
     Fundamental.debt_to_equity := Some 0.6;
     Fundamental.revenue_growth_pct := Some 5;
     Fundamental.earnings_growth_pct := Some 4 |}.

Definition neutral_news : list Sentiment.NewsItem :=
  [{| Sentiment.title := "Sentiment neutre pour AAPL";
      Sentiment.summary := "Configurez une cle API";
      Sentiment.sentiment := 0;
      Sentiment.source := "mock";
      Sentiment.url := "about:blank" |}].

End Examples.

(** * Properties of the Python runtime fragment *)

Section PyFacts.

Lemma Qltb_lt (a b : Q) : Py.Qltb a b = true <-> a < b.
Proof.
  unfold Py.Qltb. rewrite negb_true_iff.
  split; intro H.
  - apply Qnot_le_lt. intro Hle. apply Qle_bool_iff in Hle. congruence.
  - destruct (Qle_bool b a) eqn:E; [|reflexivity].
    apply Qle_bool_iff in E. exfalso. apply (Qlt_not_le _ _ H E).
Qed.

Lemma Qltb_ge (a b : Q) : Py.Qltb a b = false <-> b <= a.
Proof.
  unfold Py.Qltb. rewrite negb_false_iff. apply Qle_bool_iff.
Qed.

Lemma Qle_bool_gt (a b : Q) : Qle_bool a b = false <-> b < a.
Proof.
  rewrite <- Qltb_lt. unfold Py.Qltb. now rewrite negb_true_iff.
Qed.

Lemma Qeq_bool_false (a b : Q) : Qeq_bool a b = false <-> ~ a == b.
Proof.
  split.
  - apply Qeq_bool_neq.
  - intro H. destruct (Qeq_bool a b) eqn:E; [|reflexivity].
    apply Qeq_bool_iff in E. contradiction.
Qed.

Lemma py_min_Qmin (a b : Q) : Py.min a b == Qmin a b.
Proof.
  unfold Py.min. destruct (Py.Qltb b a) eqn:E.
  - apply Qltb_lt in E. symmetry. apply Q.min_r. lra.
  - apply Qltb_ge in E. symmetry. apply Q.min_l. exact E.
Qed.

Lemma py_max_Qmax (a b : Q) : Py.max a b == Qmax a b.
Proof.
  unfold Py.max. destruct (Py.Qltb a b) eqn:E.
  - apply Qltb_lt in E. symmetry. apply Q.max_r. lra.
  - apply Qltb_ge in E. symmetry. apply Q.max_l. exact E.
Qed.

Lemma py_div_ok (a b : Q) : ~ b == 0 -> Py.div a b = Py.Ok (a / b).
Proof.
  intro H. unfold Py.div. apply Qeq_bool_false in H. now rewrite H.
Qed.

End PyFacts.

(** * Properties of the position sizer *)

Section RiskFacts.
Import Config Risk.

(** With a positive risk per unit and a non-zero price, the call returns, and
    the size is the smaller of the two bounds. *)
Lemma compute_position_size_returns (capital price : Q) (cfg : RiskConfig) :
  0 < price - price * (1 - stop_loss_pct cfg) ->
  ~ price == 0 ->
  exists r, compute_position_size capital price cfg = Py.Ok r /\
    capital_at_risk r = capital * max_position_size_pct cfg /\
    stop_loss_price r = price * (1 - stop_loss_pct cfg) /\
    take_profit_price r = price * (1 + take_profit_pct cfg) /\
    position_size r ==
      Qmin (capital_at_risk r / (price - stop_loss_price r)) (capital / price).
Proof.
  intros Hrisk Hprice.
  unfold compute_position_size.
  apply Qle_bool_gt in Hrisk. rewrite Hrisk.
  apply Qle_bool_gt in Hrisk.
  rewrite py_div_ok by lra. rewrite py_div_ok by exact Hprice.
  cbn [Py.bind]. eexists. split; [reflexivity|].
  cbn [capital_at_risk stop_loss_price take_profit_price position_size].
  repeat split; try reflexivity. apply py_min_Qmin.
Qed.

(** The guard of the sizer in terms of the stop-loss percentage. *)
Lemma risk_per_unit_sign (price pct : Q) :
  0 < price -> (price - price * (1 - pct) <= 0 <-> pct <= 0).
Proof.
  intro Hp.
  assert (E : price - price * (1 - pct) == price * pct) by ring.
  rewrite E. split; intro H.
  - destruct (Qlt_le_dec 0 pct) as [Hpos|Hle]; [|exact Hle].
    pose proof (Qmult_lt_0_compat _ _ Hp Hpos). lra.
  - assert (0 <= price * (- pct)) by (apply Qmult_le_0_compat; lra).
    lra.
Qed.

Lemma compute_position_size_guard (capital price : Q) (cfg : RiskConfig) :
  compute_position_size capital price cfg = Py.Raise Py.ValueError <->
  price - price * (1 - stop_loss_pct cfg) <= 0.
Proof.
  unfold compute_position_size.
  destruct (Qle_bool (price - price * (1 - stop_loss_pct cfg)) 0) eqn:E.
  - apply Qle_bool_iff in E. tauto.
  - apply Qle_bool_gt in E. split; [|lra].
    assert (Hp : ~ price == 0).
    { intro H0. rewrite H0 in E. lra. }
    rewrite py_div_ok by lra. rewrite py_div_ok by exact Hp.
    cbn [Py.bind]. discriminate.
Qed.

(** C1 as stated fails: with a stop-loss percentage of [1.0] and a positive
    price the sizer does not raise; it returns a stop-loss price of zero (on
    the exact model and on binary64 floats alike). *)
Lemma stop_loss_one_does_not_raise :
  compute_position_size 10000 100
    {| max_position_size_pct := 0.05; max_daily_loss_pct := 0.02;
       stop_loss_pct := 1; take_profit_pct := 0.06 |}
  <> Py.Raise Py.ValueError /\
  (exists r,
     compute_position_size 10000 100
       {| max_position_size_pct := 0.05; max_daily_loss_pct := 0.02;
          stop_loss_pct := 1; take_profit_pct := 0.06 |} = Py.Ok r /\
     stop_loss_price r == 0 /\ position_size r == 5) /\
  Binary64.compute_position_size 10000 100
    {| Binary64.max_position_size_pct := 0x1.999999999999ap-5;
       Binary64.max_daily_loss_pct := 0x1.47ae147ae147bp-6;
       Binary64.stop_loss_pct := 1;
       Binary64.take_profit_pct := 0x1.eb851eb851eb8p-5 |}
  = Py.Ok {| Binary64.capital_at_risk := 500;
             Binary64.position_size := 5;
             Binary64.stop_loss_price := 0;
             Binary64.take_profit_price := 106 |}.
Proof.
  split; [|split].
  - vm_compute. discriminate.
  - eexists. split; [vm_compute; reflexivity|].
    split; vm_compute; reflexivity.
  - vm_compute. reflexivity.
Qed.

(** C1 (amended): the sizer raises [ValueError] exactly when the risk per
    unit [price - stop_loss_price] is at most zero, and raises nothing else;
    for a positive price that is exactly when [stop_loss_pct <= 0]; a
    stop-loss percentage of at least [1] does not raise and gives a stop-loss
    price of at most zero, of zero at [1.0]. *)
Theorem compute_position_size_raises (capital price : Q) (cfg : RiskConfig) :
  (compute_position_size capital price cfg = Py.Raise Py.ValueError <->
   price - price * (1 - stop_loss_pct cfg) <= 0) /\
  (forall e, compute_position_size capital price cfg = Py.Raise e ->
             e = Py.ValueError) /\
  (0 < price ->
   (compute_position_size capital price cfg = Py.Raise Py.ValueError <->
    stop_loss_pct cfg <= 0)) /\
  (0 < price -> 1 <= stop_loss_pct cfg ->
   exists r, compute_position_size capital price cfg = Py.Ok r /\
             stop_loss_price r <= 0 /\
             (stop_loss_pct cfg == 1 -> stop_loss_price r == 0)).
Proof.
  split; [apply compute_position_size_guard|].
  split.
  { intros e He.
    destruct (Qlt_le_dec 0 (price - price * (1 - stop_loss_pct cfg))) as [Hpos|Hle].
    - assert (Hp : ~ price == 0) by (intro H0; rewrite H0 in Hpos; lra).
      destruct (compute_position_size_returns capital price cfg Hpos Hp)
        as (r & Hr & _).
      congruence.
    - apply (proj2 (compute_position_size_guard capital price cfg)) in Hle.
      congruence. }
  split.
  { intro Hp. rewrite compute_position_size_guard.
    now apply risk_per_unit_sign. }
  intros Hp Hpct.
  assert (Hpos : 0 < price - price * (1 - stop_loss_pct cfg)).
  { apply Qnot_le_lt. rewrite (risk_per_unit_sign _ _ Hp). lra. }
  assert (Hp0 : ~ price == 0) by lra.
  destruct (compute_position_size_returns capital price cfg Hpos Hp0)
    as (r & Hr & _ & Hsl & _).
  exists r. split; [exact Hr|]. rewrite Hsl.
  assert (0 <= price * (stop_loss_pct cfg - 1)) by (apply Qmult_le_0_compat; lra).
  split; [lra|].
  intro H1. rewrite H1. ring.
Qed.

Lemma compute_position_size_raises_witness :
  compute_position_size 10000 100
    {| max_position_size_pct := 0.05; max_daily_loss_pct := 0.02;
       stop_loss_pct := 0; take_profit_pct := 0.06 |} = Py.Raise Py.ValueError.
Proof.
  apply (proj2 (proj1 (proj2 (proj2
           (compute_position_size_raises 10000 100
              {| max_position_size_pct := 0.05; max_daily_loss_pct := 0.02;
                 stop_loss_pct := 0; take_profit_pct := 0.06 |}))) ltac:(lra))).
  simpl. lra.
Defined.

(** C2: for a non-negative capital, a positive price and a configuration
    that passes the guard, the sizer returns the documented prices and
    [min(capital_at_risk / risk_per_unit, capital / price)]; the documented
    example (capital 10000, price 100, stop-loss 3%, position 5%) gives a
    stop-loss price of 97, 500 at risk and a size of 100, the affordability
    bound, on the exact model and on binary64 floats (where the literals are
    the doubles nearest 0.05, 0.02, 0.03 and 0.06). *)
Theorem compute_position_size_formula :
  (forall (capital price : Q) (cfg : RiskConfig),
     0 <= capital -> 0 < price ->
     ~ price - price * (1 - stop_loss_pct cfg) <= 0 ->
     exists r, compute_position_size capital price cfg = Py.Ok r /\
       capital_at_risk r == capital * max_position_size_pct cfg /\
       stop_loss_price r == price * (1 - stop_loss_pct cfg) /\
       take_profit_price r == price * (1 + take_profit_pct cfg) /\
       position_size r ==
         Qmin (capital_at_risk r / (price - stop_loss_price r))
              (capital / price)) /\
  (exists r,
     compute_position_size 10000 100
       {| max_position_size_pct := 0.05; max_daily_loss_pct := 0.02;
          stop_loss_pct := 0.03; take_profit_pct := 0.06 |} = Py.Ok r /\
     stop_loss_price r == 97 /\ capital_at_risk r == 500 /\
     position_size r == 100 /\
     position_size r == 10000 / 100 /\
     position_size r < capital_at_risk r / (100 - stop_loss_price r)) /\
  Binary64.compute_position_size 10000 100
    {| Binary64.max_position_size_pct := 0x1.999999999999ap-5;
       Binary64.max_daily_loss_pct := 0x1.47ae147ae147bp-6;
       Binary64.stop_loss_pct := 0x1.eb851eb851eb8p-6;
       Binary64.take_profit_pct := 0x1.eb851eb851eb8p-5 |}
  = Py.Ok {| Binary64.capital_at_risk := 500;
             Binary64.position_size := 100;
             Binary64.stop_loss_price := 97;
             Binary64.take_profit_price := 106 |}.
Proof.
  split; [|split].
  - intros capital price cfg _ Hprice Hguard.
    apply Qnot_le_lt in Hguard.
    assert (Hp0 : ~ price == 0) by lra.
    destruct (compute_position_size_returns capital price cfg Hguard Hp0)
      as (r & Hr & Hcar & Hsl & Htp & Hps).
    exists r. rewrite Hcar, Hsl, Htp in *. repeat split; try reflexivity; assumption.
  - eexists. split; [vm_compute; reflexivity|].
    repeat split; vm_compute; reflexivity.
  - vm_compute. reflexivity.
Qed.

Lemma compute_position_size_formula_witness :
  exists r,
    compute_position_size 2000 50
      {| max_position_size_pct := 0.05; max_daily_loss_pct := 0.02;
         stop_loss_pct := 0.5; take_profit_pct := 0.06 |} = Py.Ok r /\
    position_size r == 4.
Proof.
  destruct (proj1 compute_position_size_formula 2000 50
              {| max_position_size_pct := 0.05; max_daily_loss_pct := 0.02;
                 stop_loss_pct := 0.5; take_profit_pct := 0.06 |})
    as (r & Hr & Hcar & Hsl & _ & Hps).
  - lra.
  - lra.
  - simpl. lra.
  - exists r. split; [exact Hr|].
    rewrite Hps, Hcar, Hsl. vm_compute. reflexivity.
Defined.

(** C8: two configurations that agree on every field but
    [max_daily_loss_pct] give the same outcome, result or exception, for the
    same capital and price. *)
Theorem max_daily_loss_pct_not_consumed
  (capital price : Q) (c1 c2 : RiskConfig) :
  max_position_size_pct c1 = max_position_size_pct c2 ->
  stop_loss_pct c1 = stop_loss_pct c2 ->
  take_profit_pct c1 = take_profit_pct c2 ->
  compute_position_size capital price c1 = compute_position_size capital price c2.
Proof.
  intros Hmax Hstop Htake.
  unfold compute_position_size.
  rewrite Hmax, Hstop, Htake. reflexivity.
Qed.

Lemma max_daily_loss_pct_not_consumed_witness :
  compute_position_size 10000 100
    {| max_position_size_pct := 0.05; max_daily_loss_pct := 0.02;
       stop_loss_pct := 0.03; take_profit_pct := 0.06 |} =
  compute_position_size 10000 100
    {| max_position_size_pct := 0.05; max_daily_loss_pct := 0.9;
       stop_loss_pct := 0.03; take_profit_pct := 0.06 |}.
Proof.
  apply max_daily_loss_pct_not_consumed; reflexivity.
Defined.

End RiskFacts.

(** * Properties of the fundamental scorer *)

Section FundamentalFacts.
Import Fundamental.

Lemma total_app (xs ys : list Q) :
  Spec.total (xs ++ ys) == Spec.total xs + Spec.total ys.
Proof.
  unfold Spec.total. induction xs as [|x xs IH]; simpl.
  - ring.
  - rewrite IH. ring.
Qed.

Lemma size_app (xs ys : list Q) :
  Spec.size (xs ++ ys) == Spec.size xs + Spec.size ys.
Proof.
  unfold Spec.size. rewrite length_app, Nat2Z.inj_add, inject_Z_plus.
  reflexivity.
Qed.

Lemma size_cons_pos (x : Q) (xs : list Q) : 0 < Spec.size (x :: xs).
Proof.
  unfold Spec.size. change 0 with (inject_Z 0). rewrite <- Zlt_Qlt.
  simpl List.length. lia.
Qed.

Lemma clamp01_compat (x y : Q) :
  x == y -> Py.max 0 (Py.min 1 x) == Spec.clamp01 y.
Proof.
  intro E. unfold Spec.clamp01.
  rewrite py_max_Qmax, py_min_Qmin, E. reflexivity.
Qed.

Lemma clamp01_range (x : Q) : 0 <= Spec.clamp01 x <= 1.
Proof.
  unfold Spec.clamp01. split.
  - apply Q.le_max_l.
  - apply Q.max_lub; [lra|apply Q.le_min_l].
Qed.

(** One call of the closure extends the contributions seen so far. *)
Lemma add_extends (score weight ideal tolerance : Q) (metric : option Q)
  (cs : list Q) :
  ~ tolerance == 0 ->
  score == Spec.total cs -> weight == Spec.size cs ->
  exists score' weight',
    add (score, weight) metric ideal tolerance = Py.Ok (score', weight') /\
    score' == Spec.total (cs ++ Spec.present (Spec.closeness ideal tolerance) metric) /\
    weight' == Spec.size (cs ++ Spec.present (Spec.closeness ideal tolerance) metric).
Proof.
  intros Htol Hs Hw. unfold add. destruct metric as [m|]; simpl Spec.present.
  - rewrite py_div_ok by exact Htol. cbn [Py.bind].
    do 2 eexists. split; [reflexivity|].
    rewrite total_app, size_app, py_max_Qmax, Hs, Hw.
    unfold Spec.closeness, Spec.total, Spec.size. simpl. split; ring.
  - do 2 eexists. split; [reflexivity|].
    rewrite app_nil_r. split; assumption.
Qed.

Lemma add_growth_extends (score weight : Q) (growth : option Q) (cs : list Q) :
  score == Spec.total cs -> weight == Spec.size cs ->
  exists score' weight',
    add_growth (score, weight) growth = (score', weight') /\
    score' == Spec.total (cs ++ Spec.present Spec.growth_term growth) /\
    weight' == Spec.size (cs ++ Spec.present Spec.growth_term growth).
Proof.
  intros Hs Hw. unfold add_growth. destruct growth as [g|]; simpl Spec.present.
  - do 2 eexists. split; [reflexivity|].
    rewrite total_app, size_app, py_min_Qmin, Hs, Hw.
    unfold Spec.growth_term, Spec.total, Spec.size. simpl. split; ring.
  - do 2 eexists. split; [reflexivity|].
    rewrite app_nil_r. split; assumption.
Qed.

(** The accumulators hold the sum and the number of the contributions. *)
Lemma accumulate_contributions (snapshot : FundamentalSnapshot) :
  exists score weight,
    accumulate snapshot = Py.Ok (score, weight) /\
    score == Spec.total (Spec.contributions snapshot) /\
    weight == Spec.size (Spec.contributions snapshot).
Proof.
  unfold accumulate, Spec.contributions.
  destruct (add_extends 0 0 20 15 (pe_ratio snapshot) [])
    as (s1 & w1 & E1 & Hs1 & Hw1); [lra|reflexivity|reflexivity|].
  rewrite E1. cbn [Py.bind].
  destruct (add_extends s1 w1 1 1 (peg_ratio snapshot) _ ltac:(lra) Hs1 Hw1)
    as (s2 & w2 & E2 & Hs2 & Hw2).
  rewrite E2. cbn [Py.bind].
  destruct (add_extends s2 w2 0.5 0.7 (debt_to_equity snapshot) _ ltac:(lra) Hs2 Hw2)
    as (s3 & w3 & E3 & Hs3 & Hw3).
  rewrite E3. cbn [Py.bind].
  destruct (add_growth_extends s3 w3 (revenue_growth_pct snapshot) _ Hs3 Hw3)
    as (s4 & w4 & E4 & Hs4 & Hw4).
  rewrite E4.
  destruct (add_growth_extends s4 w4 (earnings_growth_pct snapshot) _ Hs4 Hw4)
    as (s5 & w5 & E5 & Hs5 & Hw5).
  rewrite E5.
  exists s5, w5. split; [reflexivity|].
  rewrite <- !app_assoc in Hs5, Hw5. split; assumption.
Qed.

(** The scorer returns the clamped mean of the present contributions. *)
Lemma score_fundamentals_refines (snapshot : FundamentalSnapshot) :
  exists v, score_fundamentals snapshot = Py.Ok v /\
    v == Spec.score_fundamentals snapshot /\
    0 <= v <= 1 /\
    (Spec.contributions snapshot = [] -> v = 0.5).
Proof.
  unfold score_fundamentals, Spec.score_fundamentals.
  destruct (accumulate_contributions snapshot) as (score & weight & E & Hs & Hw).
  rewrite E. cbn [Py.bind].
  destruct (Spec.contributions snapshot) as [|c cs] eqn:Hcs.
  - assert (H0 : Qeq_bool weight 0 = true) by (apply Qeq_bool_iff; exact Hw).
    rewrite H0. exists 0.5. repeat split; lra.
  - pose proof (size_cons_pos c cs) as Hpos.
    assert (H0 : Qeq_bool weight 0 = false) by (apply Qeq_bool_false; lra).
    rewrite H0. rewrite py_div_ok by lra. cbn [Py.bind].
    eexists. split; [reflexivity|].
    assert (Hv : Py.max 0 (Py.min 1 (score / weight))
                 == Spec.clamp01 (Spec.mean (c :: cs))).
    { apply clamp01_compat. unfold Spec.mean. rewrite Hs, Hw. reflexivity. }
    split; [exact Hv|]. split; [|discriminate].
    rewrite Hv. apply clamp01_range.
Qed.

(** C5: [score_fundamentals] returns, for every snapshot, the clamped mean
    of the contributions of its present metrics ([max(0, 1 - |v - ideal| /
    tolerance)] for the three ratios, [min(1, growth / 20)] without a floor
    for the two growth rates), a value in [[0,1]], and exactly [0.5] when no
    metric is present.  A snapshot with only a revenue growth of 20 scores
    1 (on binary64 floats as well); a negative growth term lowers the mean
    (a perfect PE with a growth of -40 scores 0, not 0.5). *)
Theorem score_fundamentals_spec :
  (forall snapshot : FundamentalSnapshot,
     exists v, score_fundamentals snapshot = Py.Ok v /\
       v == Spec.score_fundamentals snapshot /\
       0 <= v <= 1 /\
       (Spec.contributions snapshot = [] -> v = 0.5)) /\
  (forall name : string,
     score_fundamentals
       {| symbol := name; pe_ratio := None; peg_ratio := None;
          debt_to_equity := None; revenue_growth_pct := None;
          earnings_growth_pct := None |} = Py.Ok 0.5) /\
  (exists v,
     score_fundamentals
       {| symbol := "AAPL"; pe_ratio := None; peg_ratio := None;
          debt_to_equity := None; revenue_growth_pct := Some 20;
          earnings_growth_pct := None |} = Py.Ok v /\ v == 1) /\
  (exists v,
     score_fundamentals
       {| symbol := "AAPL"; pe_ratio := Some 20; peg_ratio := None;
          debt_to_equity := None; revenue_growth_pct := Some (-40);
          earnings_growth_pct := None |} = Py.Ok v /\ v == 0) /\
  Binary64.score_fundamentals
    {| Binary64.symbol := "AAPL"; Binary64.pe_ratio := None;
       Binary64.peg_ratio := None; Binary64.debt_to_equity := None;
       Binary64.revenue_growth_pct := None;
       Binary64.earnings_growth_pct := None |} = Py.Ok 0.5%float /\
  Binary64.score_fundamentals
    {| Binary64.symbol := "AAPL"; Binary64.pe_ratio := None;
       Binary64.peg_ratio := None; Binary64.debt_to_equity := None;
       Binary64.revenue_growth_pct := Some 20%float;
       Binary64.earnings_growth_pct := None |} = Py.Ok 1%float.
Proof.
  split; [exact score_fundamentals_refines|split; [|split; [|split; [|split]]]].
  - intro name. reflexivity.
  - eexists. split; [vm_compute; reflexivity|]. reflexivity.
  - eexists. split; [vm_compute; reflexivity|]. reflexivity.
  - vm_compute. reflexivity.
  - vm_compute. reflexivity.
Qed.

End FundamentalFacts.

(** * Properties of the sentiment aggregator *)

Section SentimentFacts.
Import Sentiment.

Lemma fold_left_total (xs : list Q) (a : Q) :
  fold_left Qplus xs a == a + Spec.total xs.
Proof.
  revert a. induction xs as [|x xs IH]; intro a; simpl.
  - ring.
  - rewrite IH. ring.
Qed.

Lemma sum_total (xs : list Q) : sum xs == Spec.total xs.
Proof.
  unfold sum. rewrite fold_left_total. ring.
Qed.

(** The aggregator returns the mean of the mapped sentiments. *)
Lemma aggregate_sentiment_mean (items : list NewsItem) :
  exists v, aggregate_sentiment items = Py.Ok v /\
    v == Spec.aggregate_sentiment items.
Proof.
  destruct items as [|it items].
  - exists 0.5. split; reflexivity.
  - unfold aggregate_sentiment, Spec.aggregate_sentiment.
    set (normalized := map (fun i => (sentiment i + 1) / 2) (it :: items)).
    assert (Hlen : 0 < len normalized).
    { unfold normalized. apply (size_cons_pos _ _). }
    rewrite py_div_ok by lra.
    eexists. split; [reflexivity|].
    unfold Spec.mean. rewrite sum_total. reflexivity.
Qed.

Lemma total_range (xs : list Q) :
  Forall (fun x => 0 <= x <= 1) xs -> 0 <= Spec.total xs <= Spec.size xs.
Proof.
  unfold Spec.total, Spec.size.
  induction 1 as [|x xs Hx _ IH].
  - simpl. split; apply Qle_refl.
  - cbn [fold_right List.length].
    rewrite Nat2Z.inj_succ, <- Z.add_1_l, inject_Z_plus.
    change (inject_Z 1) with 1. lra.
Qed.

(** Under the input contract (sentiments in [[-1,1]]) the aggregate lies in
    the unit interval. *)
Lemma aggregate_sentiment_range (items : list NewsItem) :
  Forall (fun it => -1 <= sentiment it <= 1) items ->
  exists v, aggregate_sentiment items = Py.Ok v /\ 0 <= v <= 1.
Proof.
  intro Hall.
  destruct (aggregate_sentiment_mean items) as (v & Hv & E).
  exists v. split; [exact Hv|]. rewrite E.
  destruct items as [|it items]; [simpl; lra|].
  unfold Spec.aggregate_sentiment, Spec.mean.
  set (xs := map (fun item => (sentiment item + 1) / 2) (it :: items)).
  assert (Hxs : Forall (fun x => 0 <= x <= 1) xs).
  { unfold xs. apply Forall_map. eapply Forall_impl; [|exact Hall].
    cbv beta. intros a Ha.
    split; [apply Qle_shift_div_l|apply Qle_shift_div_r]; lra. }
  pose proof (total_range xs Hxs) as Ht.
  assert (Hpos : 0 < Spec.size xs) by (unfold xs; apply (size_cons_pos _ _)).
  split; [apply Qle_shift_div_l|apply Qle_shift_div_r]; lra.
Qed.

(** C6: [aggregate_sentiment] returns exactly [0.5] on an empty collection
    and otherwise the arithmetic mean of [(s + 1) / 2] over the items, with
    no clamp (an item outside the input contract, of sentiment 3, gives 2);
    a single item of sentiment 1 gives 1, of sentiment -1 gives 0 (on
    binary64 floats as well). *)
Theorem aggregate_sentiment_spec :
  aggregate_sentiment [] = Py.Ok 0.5 /\
  (forall items : list NewsItem,
     exists v, aggregate_sentiment items = Py.Ok v /\
       v == Spec.aggregate_sentiment items) /\
  (forall it : NewsItem, sentiment it == 1 ->
     exists v, aggregate_sentiment [it] = Py.Ok v /\ v == 1) /\
  (forall it : NewsItem, sentiment it == -1 ->
     exists v, aggregate_sentiment [it] = Py.Ok v /\ v == 0) /\
  (exists v,
     aggregate_sentiment
       [{| title := "t"; summary := "s"; sentiment := 3; source := "mock";
           url := "u" |}] = Py.Ok v /\ v == 2) /\
  Binary64.aggregate_sentiment [] = Py.Ok 0.5%float /\
  Binary64.aggregate_sentiment [1%float] = Py.Ok 1%float /\
  Binary64.aggregate_sentiment [(-1)%float] = Py.Ok 0%float.
Proof.
  split; [reflexivity|]. split; [exact aggregate_sentiment_mean|].
  split; [|split; [|split; [|repeat split]]].
  - intros it H1. destruct (aggregate_sentiment_mean [it]) as (v & Hv & E).
    exists v. split; [exact Hv|]. rewrite E.
    unfold Spec.aggregate_sentiment, Spec.mean, Spec.total, Spec.size.
    simpl. rewrite H1. reflexivity.
  - intros it H1. destruct (aggregate_sentiment_mean [it]) as (v & Hv & E).
    exists v. split; [exact Hv|]. rewrite E.
    unfold Spec.aggregate_sentiment, Spec.mean, Spec.total, Spec.size.
    simpl. rewrite H1. reflexivity.
  - eexists. split; [vm_compute; reflexivity|]. reflexivity.
Qed.

End SentimentFacts.

(** * Properties of the technical indicators *)

Section SeriesFacts.
Import Technical.

Lemma nth_error_map_seq {A : Type} (f : nat -> A) (n i : nat) :
  (i < n)%nat -> nth_error (map f (seq 0 n)) i = Some (f i).
Proof.
  intro Hi. rewrite nth_error_map, nth_error_seq.
  apply Nat.ltb_lt in Hi. rewrite Hi. reflexivity.
Qed.

Lemma length_rolling_mean (w m : nat) (s : Series) :
  List.length (rolling_mean w m s) = List.length s.
Proof.
  unfold rolling_mean. now rewrite length_map, length_seq.
Qed.

Lemma rolling_mean_nth (w m : nat) (s : Series) (i : nat) :
  (i < List.length s)%nat ->
  nth_error (rolling_mean w m s) i = Some (window_mean m (window w s i)).
Proof.
  intro Hi. unfold rolling_mean. now rewrite nth_error_map_seq.
Qed.

Lemma length_window (w : nat) (s : Series) (i : nat) :
  (i < List.length s)%nat ->
  List.length (window w s i) = Nat.min w (i + 1).
Proof.
  intro Hi. unfold window. rewrite length_firstn, length_skipn. lia.
Qed.

Lemma window_mean_short (m : nat) (win : Series) :
  (List.length win < m)%nat -> window_mean m win = NaN.
Proof.
  intro H. unfold window_mean, observations.
  pose proof (filter_length_le notna win) as Hle.
  assert (E : (List.length (filter notna win) <? m)%nat = true)
    by (apply Nat.ltb_lt; lia).
  rewrite E. reflexivity.
Qed.

Lemma observations_Fin (qs : list Q) : observations (map Fin qs) = map Fin qs.
Proof.
  unfold observations. induction qs as [|q qs IH]; simpl; [|rewrite IH];
    reflexivity.
Qed.

Lemma fold_add_Fin (qs : list Q) (a : Q) :
  fold_left add (map Fin qs) (Fin a) = Fin (fold_left Qplus qs a).
Proof.
  revert a. induction qs as [|q qs IH]; intro a; simpl; [reflexivity|].
  apply IH.
Qed.

Lemma size_pos (qs : list Q) : (0 < List.length qs)%nat -> 0 < Spec.size qs.
Proof.
  destruct qs as [|q qs]; simpl; [lia|]. intros _. apply size_cons_pos.
Qed.

(** The mean of a full window of finite cells is their finite mean. *)
Lemma window_mean_Fin (m : nat) (qs : list Q) :
  (0 < List.length qs)%nat -> (m <= List.length qs)%nat ->
  window_mean m (map Fin qs) = Fin (fold_left Qplus qs 0 / Spec.size qs).
Proof.
  intros Hpos Hm. unfold window_mean.
  rewrite observations_Fin, length_map.
  assert (E1 : (List.length qs <? m)%nat = false) by (apply Nat.ltb_ge; lia).
  assert (E2 : (List.length qs =? 0)%nat = false) by (apply Nat.eqb_neq; lia).
  rewrite E1, E2. cbn [orb].
  unfold total, count. rewrite fold_add_Fin, length_map.
  fold (Spec.size qs). unfold div.
  pose proof (size_pos qs Hpos) as Hsz.
  assert (E3 : Qeq_bool (Spec.size qs) 0 = false) by (apply Qeq_bool_false; lra).
  rewrite E3. reflexivity.
Qed.

Lemma skipn_cons_nth {A : Type} (l : list A) (s : nat) (p : A) :
  nth_error l s = Some p -> skipn s l = p :: skipn (S s) l.
Proof.
  revert s. induction l as [|x l IH]; intros [|s] H; simpl in *;
    try discriminate.
  - now inversion H.
  - apply IH. exact H.
Qed.

(** The closes of [w] consecutive rows from row [s] on, by index. *)
Lemma closes_by_index (df : DataFrame) (s w : nat) :
  (s + w <= List.length df)%nat ->
  map close (firstn w (skipn s df)) = map (Spec.close_at df) (seq s w).
Proof.
  revert s. induction w as [|w IH]; intros s H; [reflexivity|].
  destruct (nth_error df s) as [p|] eqn:E.
  - rewrite (skipn_cons_nth _ _ _ E). cbn [firstn map seq].
    rewrite IH by lia. unfold Spec.close_at at 2. rewrite E. reflexivity.
  - apply nth_error_None in E. lia.
Qed.

Lemma window_closes (df : DataFrame) (w i : nat) :
  window w (closes df) i =
  map Fin (map close (firstn (i + 1 - (i + 1 - w)) (skipn (i + 1 - w) df))).
Proof.
  unfold window, closes. now rewrite skipn_map, firstn_map, map_map.
Qed.

Lemma moving_average_short (df : DataFrame) (w i : nat) :
  (i < List.length df)%nat -> (i + 1 < w)%nat ->
  nth_error (moving_average df w) i = Some NaN.
Proof.
  intros Hi Hshort. unfold moving_average.
  assert (Hlen : (i < List.length (closes df))%nat)
    by (unfold closes; now rewrite length_map).
  rewrite (rolling_mean_nth _ _ _ _ Hlen). f_equal.
  apply window_mean_short. rewrite (length_window _ _ _ Hlen). lia.
Qed.

Lemma moving_average_full (df : DataFrame) (w i : nat) :
  (0 < w)%nat -> (i < List.length df)%nat -> (w <= i + 1)%nat ->
  exists m, nth_error (moving_average df w) i = Some (Fin m) /\
            m == Spec.trailing_mean df w i.
Proof.
  intros Hw Hi Hfull. unfold moving_average.
  assert (Hlen : (i < List.length (closes df))%nat)
    by (unfold closes; now rewrite length_map).
  rewrite (rolling_mean_nth _ _ _ _ Hlen), window_closes.
  replace (i + 1 - (i + 1 - w))%nat with w by lia.
  rewrite closes_by_index by lia.
  rewrite window_mean_Fin by (rewrite length_map, length_seq; lia).
  eexists. split; [reflexivity|].
  unfold Spec.trailing_mean, Spec.mean.
  rewrite fold_left_total, Qplus_0_l. reflexivity.
Qed.

(** C7: at a row with fewer than [window] rows up to and including itself
    the moving average has no value (NaN); at every other row it is the
    finite, exact arithmetic mean of the trailing [window] closes. *)
Theorem moving_average_spec (df : DataFrame) (w i : nat) :
  (0 < w)%nat -> (i < List.length df)%nat ->
  ((i + 1 < w)%nat -> nth_error (moving_average df w) i = Some NaN) /\
  ((w <= i + 1)%nat ->
   exists m, nth_error (moving_average df w) i = Some (Fin m) /\
             m == Spec.trailing_mean df w i).
Proof.
  intros Hw Hi. split.
  - now apply moving_average_short.
  - now apply moving_average_full.
Qed.

Lemma length_zip_with (f : cell -> cell -> cell) (a b : Series) :
  List.length (zip_with f a b) = Nat.min (List.length a) (List.length b).
Proof.
  unfold zip_with. now rewrite length_map, length_combine.
Qed.

Lemma zip_with_nth (f : cell -> cell -> cell) (a b : Series) (i : nat)
  (x y : cell) :
  nth_error a i = Some x -> nth_error b i = Some y ->
  nth_error (zip_with f a b) i = Some (f x y).
Proof.
  unfold zip_with. revert b i.
  induction a as [|a0 a IH]; intros [|b0 b] [|i] Ha Hb; simpl in *;
    try discriminate.
  - inversion Ha; inversion Hb; subst. reflexivity.
  - apply IH; assumption.
Qed.

Lemma length_diff (s : Series) : List.length (diff s) = List.length s.
Proof.
  destruct s as [|x s]; [reflexivity|].
  unfold diff. cbn [List.length]. rewrite length_zip_with.
  cbn [List.length]. lia.
Qed.

Lemma length_up_moves (df : DataFrame) :
  List.length (up_moves df) = List.length df.
Proof.
  unfold up_moves, clip_lower, closes.
  now rewrite length_map, length_diff, length_map.
Qed.

Lemma length_down_moves (df : DataFrame) :
  List.length (down_moves df) = List.length df.
Proof.
  unfold down_moves, clip_upper, closes.
  now rewrite !length_map, length_diff, length_map.
Qed.

(** The value of the RSI at a row, from the two rolling means there. *)
Lemma rsi_nth (df : DataFrame) (w i : nat) (x y : cell) :
  nth_error (roll_up df w) i = Some x ->
  nth_error (roll_down df w) i = Some y ->
  nth_error (relative_strength_index df w) i =
  Some (let c := sub (Fin 100) (div (Fin 100) (add (Fin 1) (div x y))) in
        if notna c then c else Fin 50).
Proof.
  intros Hx Hy. unfold relative_strength_index, fillna.
  rewrite !nth_error_map, (zip_with_nth _ _ _ _ _ _ Hx Hy). reflexivity.
Qed.

Lemma length_relative_strength_index (df : DataFrame) (w : nat) :
  List.length (relative_strength_index df w) = List.length df.
Proof.
  unfold relative_strength_index, fillna, roll_up, roll_down.
  rewrite !length_map, length_zip_with, !length_rolling_mean,
    length_up_moves, length_down_moves.
  lia.
Qed.

Lemma fillna_notna (v : Q) (s : Series) (i : nat) (c : cell) :
  nth_error (fillna v s) i = Some c -> c <> NaN.
Proof.
  unfold fillna. rewrite nth_error_map.
  destruct (nth_error s i) as [x|]; [|discriminate].
  simpl. intro H. inversion H. destruct x; simpl; discriminate.
Qed.

(** A zero mean of down-moves under a positive mean of up-moves: 100. *)
Lemma rsi_all_gains (u d : Q) :
  d == 0 -> 0 < u ->
  exists r,
    (let c := sub (Fin 100) (div (Fin 100) (add (Fin 1) (div (Fin u) (Fin d)))) in
     if notna c then c else Fin 50) = Fin r /\ r == 100.
Proof.
  intros Hd Hu. unfold div at 2.
  apply Qeq_bool_iff in Hd. rewrite Hd.
  apply Qgt_alt in Hu. rewrite Hu.
  eexists. split; [reflexivity|]. ring.
Qed.

(** Two zero means: the quotient is NaN and the RSI falls back to 50. *)
Lemma rsi_flat (u d : Q) :
  u == 0 -> d == 0 ->
  (let c := sub (Fin 100) (div (Fin 100) (add (Fin 1) (div (Fin u) (Fin d)))) in
   if notna c then c else Fin 50) = Fin 50.
Proof.
  intros Hu Hd. unfold div at 2.
  apply Qeq_bool_iff in Hd. rewrite Hd.
  apply Qeq_alt in Hu. rewrite Hu. reflexivity.
Qed.

(** An undefined mean: the RSI falls back to 50. *)
Lemma rsi_undefined (x y : cell) :
  x = NaN \/ y = NaN ->
  (let c := sub (Fin 100) (div (Fin 100) (add (Fin 1) (div x y))) in
   if notna c then c else Fin 50) = Fin 50.
Proof.
  intros [H|H]; subst; [|destruct x]; reflexivity.
Qed.

(** *** Rows without enough history *)

Lemma observations_drop_NaN (win : Series) :
  In NaN win -> (List.length (observations win) < List.length win)%nat.
Proof.
  unfold observations. induction win as [|c win IH]; intro H; [destruct H|].
  pose proof (filter_length_le notna win) as Hle.
  destruct H as [H|H].
  - subst c. simpl. lia.
  - specialize (IH H). simpl. destruct (notna c); simpl; lia.
Qed.

Lemma window_mean_missing (m : nat) (win : Series) :
  In NaN win -> (List.length win <= m)%nat -> window_mean m win = NaN.
Proof.
  intros Hin Hlen. unfold window_mean.
  pose proof (observations_drop_NaN win Hin) as Hlt.
  assert (E : (List.length (observations win) <? m)%nat = true)
    by (apply Nat.ltb_lt; lia).
  rewrite E. reflexivity.
Qed.

Lemma window_prefix (w : nat) (s : Series) (i : nat) :
  (i + 1 <= w)%nat -> window w s i = firstn (i + 1) s.
Proof.
  intro H. unfold window.
  replace (i + 1 - w)%nat with 0%nat by lia.
  cbn [skipn]. f_equal. lia.
Qed.

(** A series that starts with NaN has no rolling mean on its first [w]
    rows. *)
Lemma rolling_mean_head (w : nat) (rest : Series) (i : nat) :
  (i < List.length (NaN :: rest))%nat -> (i < w)%nat ->
  nth_error (rolling_mean w w (NaN :: rest)) i = Some NaN.
Proof.
  intros Hi Hw. rewrite rolling_mean_nth by exact Hi. f_equal.
  rewrite window_prefix by lia. rewrite Nat.add_1_r. cbn [firstn].
  apply window_mean_missing; [now left|].
  cbn [List.length]. rewrite length_firstn. lia.
Qed.

Lemma up_moves_head (p : PricePoint) (df : DataFrame) :
  exists rest, up_moves (p :: df) = NaN :: rest.
Proof.
  unfold up_moves, clip_lower, diff, closes. cbn [map]. eexists.
  reflexivity.
Qed.

Lemma down_moves_head (p : PricePoint) (df : DataFrame) :
  exists rest, down_moves (p :: df) = NaN :: rest.
Proof.
  unfold down_moves, clip_upper, diff, closes. cbn [map]. eexists.
  reflexivity.
Qed.

Lemma roll_up_short (df : DataFrame) (w i : nat) :
  (i < List.length df)%nat -> (i < w)%nat ->
  nth_error (roll_up df w) i = Some NaN.
Proof.
  intros Hi Hw. unfold roll_up.
  pose proof (length_up_moves df) as Hlen.
  destruct df as [|p df]; [simpl in Hi; lia|].
  destruct (up_moves_head p df) as (rest & E). rewrite E in *.
  apply rolling_mean_head; [rewrite Hlen; exact Hi|exact Hw].
Qed.

Lemma roll_down_short (df : DataFrame) (w i : nat) :
  (i < List.length df)%nat -> (i < w)%nat ->
  nth_error (roll_down df w) i = Some NaN.
Proof.
  intros Hi Hw. unfold roll_down.
  pose proof (length_down_moves df) as Hlen.
  destruct df as [|p df]; [simpl in Hi; lia|].
  destruct (down_moves_head p df) as (rest & E). rewrite E in *.
  apply rolling_mean_head; [rewrite Hlen; exact Hi|exact Hw].
Qed.

(** *** Rows whose window is flat *)

Lemma total_zero (qs : list Q) :
  Forall (fun q => q == 0) qs -> Spec.total qs == 0.
Proof.
  unfold Spec.total. induction 1 as [|q qs Hq _ IH]; simpl.
  - reflexivity.
  - rewrite Hq, IH. ring.
Qed.

(** [n] consecutive finite cells from row [start] on, all within [P]. *)
Lemma fin_run (P : Q -> Prop) (s : Series) (start n : nat) :
  (forall k, (start <= k < start + n)%nat ->
     exists q, nth_error s k = Some (Fin q) /\ P q) ->
  exists qs, firstn n (skipn start s) = map Fin qs /\
    List.length qs = n /\ Forall P qs.
Proof.
  revert start. induction n as [|n IH]; intros start H.
  - exists []. repeat split. constructor.
  - destruct (H start ltac:(lia)) as (q & Hq & Hq0).
    destruct (IH (S start)) as (qs & E & Hlen & Hall).
    { intros k Hk. apply H. lia. }
    exists (q :: qs). rewrite (skipn_cons_nth _ _ _ Hq). cbn [firstn map].
    rewrite E. repeat split; [simpl; lia|]. now constructor.
Qed.

(** The rolling mean over a full window of finite cells within [P]. *)
Lemma rolling_mean_run (P : Q -> Prop) (s : Series) (w i : nat) :
  (0 < w)%nat -> (w <= i + 1)%nat -> (i < List.length s)%nat ->
  (forall k, (i + 1 - w <= k <= i)%nat ->
     exists q, nth_error s k = Some (Fin q) /\ P q) ->
  exists qs, List.length qs = w /\ Forall P qs /\
    nth_error (rolling_mean w w s) i =
    Some (Fin (fold_left Qplus qs 0 / Spec.size qs)).
Proof.
  intros Hw Hfull Hi Hrun.
  rewrite rolling_mean_nth by exact Hi. unfold window.
  replace (i + 1 - (i + 1 - w))%nat with w by lia.
  destruct (fin_run P s (i + 1 - w) w) as (qs & E & Hlen & Hall).
  { intros k Hk. apply Hrun. lia. }
  exists qs. rewrite E, window_mean_Fin by lia. tauto.
Qed.

Lemma rolling_mean_flat (s : Series) (w i : nat) :
  (0 < w)%nat -> (w <= i + 1)%nat -> (i < List.length s)%nat ->
  (forall k, (i + 1 - w <= k <= i)%nat ->
     exists q, nth_error s k = Some (Fin q) /\ q == 0) ->
  exists r, nth_error (rolling_mean w w s) i = Some (Fin r) /\ r == 0.
Proof.
  intros Hw Hfull Hi Hzero.
  destruct (rolling_mean_run _ s w i Hw Hfull Hi Hzero) as (qs & _ & Hall & E).
  eexists. split; [exact E|].
  rewrite fold_left_total, (total_zero _ Hall).
  unfold Qdiv. ring.
Qed.

Lemma total_pos (qs : list Q) :
  (0 < List.length qs)%nat -> Forall (fun q => 0 < q) qs -> 0 < Spec.total qs.
Proof.
  unfold Spec.total. intros Hlen Hall.
  induction Hall as [|q qs Hq Hall IH]; [simpl in Hlen; lia|].
  simpl. destruct qs as [|q' qs'].
  - simpl. lra.
  - assert (0 < fold_right Qplus 0 (q' :: qs')) by (apply IH; simpl; lia).
    lra.
Qed.

Lemma rolling_mean_pos (s : Series) (w i : nat) :
  (0 < w)%nat -> (w <= i + 1)%nat -> (i < List.length s)%nat ->
  (forall k, (i + 1 - w <= k <= i)%nat ->
     exists q, nth_error s k = Some (Fin q) /\ 0 < q) ->
  exists r, nth_error (rolling_mean w w s) i = Some (Fin r) /\ 0 < r.
Proof.
  intros Hw Hfull Hi Hpos.
  destruct (rolling_mean_run _ s w i Hw Hfull Hi Hpos) as (qs & Hlen & Hall & E).
  eexists. split; [exact E|].
  rewrite fold_left_total, Qplus_0_l.
  apply Qlt_shift_div_l.
  - apply size_pos. lia.
  - rewrite Qmult_0_l. apply total_pos; [lia|exact Hall].
Qed.

Lemma closes_nth (df : DataFrame) (k : nat) :
  (k < List.length df)%nat ->
  nth_error (closes df) k = Some (Fin (Spec.close_at df k)).
Proof.
  intro Hk. unfold closes, Spec.close_at. rewrite nth_error_map.
  destruct (nth_error df k) eqn:E; [reflexivity|].
  apply nth_error_None in E. lia.
Qed.

Lemma diff_nth (s : Series) (k : nat) (a b : cell) :
  nth_error s k = Some a -> nth_error s (S k) = Some b ->
  nth_error (diff s) (S k) = Some (sub b a).
Proof.
  intros Ha Hb. destruct s as [|x tl]; [destruct k; discriminate|].
  unfold diff. cbn [nth_error]. apply zip_with_nth; assumption.
Qed.

(** The step into a row whose close repeats the previous one is neither an
    up-move nor a down-move. *)
Lemma up_moves_flat (df : DataFrame) (k : nat) :
  (S k < List.length df)%nat ->
  Spec.close_at df (S k) == Spec.close_at df k ->
  exists q, nth_error (up_moves df) (S k) = Some (Fin q) /\ q == 0.
Proof.
  intros Hk Heq. unfold up_moves, clip_lower. rewrite nth_error_map.
  rewrite (diff_nth _ _ _ _ (closes_nth df k ltac:(lia)) (closes_nth df (S k) Hk)).
  cbn [option_map sub neg add ltb].
  destruct (Py.Qltb _ 0); eexists; (split; [reflexivity|]); lra.
Qed.

Lemma down_moves_flat (df : DataFrame) (k : nat) :
  (S k < List.length df)%nat ->
  Spec.close_at df (S k) == Spec.close_at df k ->
  exists q, nth_error (down_moves df) (S k) = Some (Fin q) /\ q == 0.
Proof.
  intros Hk Heq. unfold down_moves, clip_upper. rewrite !nth_error_map.
  rewrite (diff_nth _ _ _ _ (closes_nth df k ltac:(lia)) (closes_nth df (S k) Hk)).
  cbn [option_map sub neg add ltb].
  destruct (Py.Qltb 0 _); cbn [neg]; eexists; (split; [reflexivity|]); lra.
Qed.

(** The step into a row that closes higher is an up-move and no
    down-move. *)
Lemma up_moves_gain (df : DataFrame) (k : nat) :
  (S k < List.length df)%nat ->
  Spec.close_at df k < Spec.close_at df (S k) ->
  exists q, nth_error (up_moves df) (S k) = Some (Fin q) /\ 0 < q.
Proof.
  intros Hk Hlt. unfold up_moves, clip_lower. rewrite nth_error_map.
  rewrite (diff_nth _ _ _ _ (closes_nth df k ltac:(lia)) (closes_nth df (S k) Hk)).
  cbn [option_map sub neg add ltb].
  destruct (Py.Qltb _ 0) eqn:E.
  - apply Qltb_lt in E. lra.
  - eexists. split; [reflexivity|]. lra.
Qed.

Lemma down_moves_gain (df : DataFrame) (k : nat) :
  (S k < List.length df)%nat ->
  Spec.close_at df k < Spec.close_at df (S k) ->
  exists q, nth_error (down_moves df) (S k) = Some (Fin q) /\ q == 0.
Proof.
  intros Hk Hlt. unfold down_moves, clip_upper. rewrite !nth_error_map.
  rewrite (diff_nth _ _ _ _ (closes_nth df k ltac:(lia)) (closes_nth df (S k) Hk)).
  cbn [option_map sub neg add ltb].
  destruct (Py.Qltb 0 _) eqn:E; cbn [neg].
  - eexists. split; [reflexivity|]. ring.
  - apply Qltb_ge in E. lra.
Qed.

(** Over [w] consecutive gains ending at row [i], the rolling mean of the
    up-moves is positive and that of the down-moves a finite zero. *)
Lemma roll_gains (df : DataFrame) (w i : nat) :
  (0 < w)%nat -> (w <= i)%nat -> (i < List.length df)%nat ->
  (forall k, (i - w <= k < i)%nat ->
     Spec.close_at df k < Spec.close_at df (S k)) ->
  (exists u, nth_error (roll_up df w) i = Some (Fin u) /\ 0 < u) /\
  (exists d, nth_error (roll_down df w) i = Some (Fin d) /\ d == 0).
Proof.
  intros Hw Hwi Hi Hgain.
  assert (Hstep : forall k, (i + 1 - w <= k <= i)%nat ->
            exists k', k = S k' /\ (S k' < List.length df)%nat /\
              Spec.close_at df k' < Spec.close_at df (S k')).
  { intros k Hk. destruct k as [|k']; [lia|]. exists k'.
    split; [reflexivity|]. split; [lia|]. apply Hgain. lia. }
  split.
  - apply rolling_mean_pos; try lia.
    + rewrite length_up_moves. exact Hi.
    + intros k Hk. destruct (Hstep k Hk) as (k' & -> & Hlt & Hlt').
      now apply up_moves_gain.
  - apply rolling_mean_flat; try lia.
    + rewrite length_down_moves. exact Hi.
    + intros k Hk. destruct (Hstep k Hk) as (k' & -> & Hlt & Hlt').
      now apply down_moves_gain.
Qed.

(** Over [w + 1] equal closes ending at row [i], both rolling means are a
    finite zero. *)
Lemma roll_flat (df : DataFrame) (w i : nat) :
  (0 < w)%nat -> (w <= i)%nat -> (i < List.length df)%nat ->
  (forall k, (i - w <= k <= i)%nat ->
     Spec.close_at df k == Spec.close_at df i) ->
  (exists u, nth_error (roll_up df w) i = Some (Fin u) /\ u == 0) /\
  (exists d, nth_error (roll_down df w) i = Some (Fin d) /\ d == 0).
Proof.
  intros Hw Hwi Hi Hflat.
  assert (Hstep : forall k, (i + 1 - w <= k <= i)%nat ->
            exists k', k = S k' /\ (S k' < List.length df)%nat /\
              Spec.close_at df (S k') == Spec.close_at df k').
  { intros k Hk. destruct k as [|k']; [lia|]. exists k'.
    split; [reflexivity|]. split; [lia|].
    rewrite (Hflat (S k')), (Hflat k') by lia. reflexivity. }
  split.
  - apply rolling_mean_flat; try lia.
    + rewrite length_up_moves. exact Hi.
    + intros k Hk. destruct (Hstep k Hk) as (k' & -> & Hlt & Heq).
      now apply up_moves_flat.
  - apply rolling_mean_flat; try lia.
    + rewrite length_down_moves. exact Hi.
    + intros k Hk. destruct (Hstep k Hk) as (k' & -> & Hlt & Heq).
      now apply down_moves_flat.
Qed.

(** On the first [w] rows the RSI is the neutral 50. *)
Lemma rsi_short (df : DataFrame) (w i : nat) :
  (i < List.length df)%nat -> (i < w)%nat ->
  nth_error (relative_strength_index df w) i = Some (Fin 50).
Proof.
  intros Hi Hshort.
  rewrite (rsi_nth df w i NaN NaN (roll_up_short df w i Hi Hshort)
             (roll_down_short df w i Hi Hshort)).
  reflexivity.
Qed.

(** C4: at a row where the rolling mean of the down-moves is zero and that
    of the up-moves is positive the RSI is 100, as it is after [window]
    consecutive gains; where both means are zero, or one is undefined, it is
    50.  The means are undefined on the first [window] rows (fewer than
    [window + 1] points of history) and both zero over [window + 1] equal
    closes.  No row of the RSI is NaN. *)
Theorem rsi_edge_cases (df : DataFrame) (w i : nat) :
  (0 < w)%nat -> (i < List.length df)%nat ->
  (forall u d,
     nth_error (roll_up df w) i = Some (Fin u) ->
     nth_error (roll_down df w) i = Some (Fin d) ->
     d == 0 -> 0 < u ->
     exists r, nth_error (relative_strength_index df w) i = Some (Fin r) /\
               r == 100) /\
  ((w <= i)%nat ->
   (forall k, (i - w <= k < i)%nat ->
      Spec.close_at df k < Spec.close_at df (S k)) ->
   exists r, nth_error (relative_strength_index df w) i = Some (Fin r) /\
             r == 100) /\
  (forall u d,
     nth_error (roll_up df w) i = Some (Fin u) ->
     nth_error (roll_down df w) i = Some (Fin d) ->
     u == 0 -> d == 0 ->
     nth_error (relative_strength_index df w) i = Some (Fin 50)) /\
  (nth_error (roll_up df w) i = Some NaN \/
   nth_error (roll_down df w) i = Some NaN ->
   nth_error (relative_strength_index df w) i = Some (Fin 50)) /\
  ((i < w)%nat ->
   nth_error (roll_up df w) i = Some NaN /\
   nth_error (roll_down df w) i = Some NaN /\
   nth_error (relative_strength_index df w) i = Some (Fin 50)) /\
  ((w <= i)%nat ->
   (forall k, (i - w <= k <= i)%nat ->
      Spec.close_at df k == Spec.close_at df i) ->
   nth_error (relative_strength_index df w) i = Some (Fin 50)) /\
  (exists c, nth_error (relative_strength_index df w) i = Some c /\ c <> NaN).
Proof.
  intros Hw Hi.
  assert (Hup : exists x, nth_error (roll_up df w) i = Some x).
  { unfold roll_up. rewrite rolling_mean_nth by (now rewrite length_up_moves).
    eexists; reflexivity. }
  assert (Hdown : exists y, nth_error (roll_down df w) i = Some y).
  { unfold roll_down. rewrite rolling_mean_nth by (now rewrite length_down_moves).
    eexists; reflexivity. }
  destruct Hup as (x & Hx), Hdown as (y & Hy).
  pose proof (rsi_nth df w i x y Hx Hy) as Hrsi.
  assert (Hundef : x = NaN \/ y = NaN ->
            nth_error (relative_strength_index df w) i = Some (Fin 50)).
  { intro H. rewrite Hrsi. f_equal. now apply rsi_undefined. }
  repeat apply conj.
  - intros u d Hu Hd Hd0 Hupos.
    assert (x = Fin u) by congruence. assert (y = Fin d) by congruence. subst.
    destruct (rsi_all_gains u d Hd0 Hupos) as (r & Er & Hr).
    exists r. split; [|exact Hr]. rewrite Hrsi. f_equal. exact Er.
  - intros Hfull Hgain.
    destruct (roll_gains df w i Hw Hfull Hi Hgain) as ((u & Hu & Hu0) & (d & Hd & Hd0)).
    assert (x = Fin u) by congruence. assert (y = Fin d) by congruence. subst.
    destruct (rsi_all_gains u d Hd0 Hu0) as (r & Er & Hr).
    exists r. split; [|exact Hr]. rewrite Hrsi. f_equal. exact Er.
  - intros u d Hu Hd Hu0 Hd0.
    assert (x = Fin u) by congruence. assert (y = Fin d) by congruence. subst.
    rewrite Hrsi. f_equal. now apply rsi_flat.
  - intros [H|H]; apply Hundef; [left|right]; congruence.
  - intro Hshort.
    repeat split;
      [now apply roll_up_short|now apply roll_down_short|now apply rsi_short].
  - intros Hfull Hflat.
    destruct (roll_flat df w i Hw Hfull Hi Hflat) as ((u & Hu & Hu0) & (d & Hd & Hd0)).
    assert (x = Fin u) by congruence. assert (y = Fin d) by congruence. subst.
    rewrite Hrsi. f_equal. now apply rsi_flat.
  - eexists. split; [exact Hrsi|].
    unfold relative_strength_index in Hrsi.
    eapply fillna_notna. exact Hrsi.
Qed.

End SeriesFacts.

(** * Properties of the technical score *)

Section ScoreFacts.
Import Technical.

Variable Qsqrt : Q -> Q.

Lemma iloc_last_ok {A : Type} (s : list A) :
  s <> [] ->
  exists x, iloc_last s = Py.Ok x /\
            nth_error s (List.length s - 1) = Some x.
Proof.
  intro Hs. unfold iloc_last.
  pose proof (nth_error_rev 0 s) as Hrev.
  destruct s as [|a s]; [contradiction|].
  destruct (rev (a :: s)) as [|x l] eqn:E.
  - apply (f_equal (@List.length A)) in E. rewrite length_rev in E.
    discriminate.
  - exists x. split; [reflexivity|]. simpl in Hrev.
    rewrite Nat.sub_0_r in Hrev. simpl. rewrite Nat.sub_0_r.
    symmetry. exact Hrev.
Qed.

Lemma length_moving_average (df : DataFrame) (w : nat) :
  List.length (moving_average df w) = List.length df.
Proof.
  unfold moving_average, closes. now rewrite length_rolling_mean, length_map.
Qed.

Lemma length_rolling_std (w m : nat) (s : Series) :
  List.length (rolling_std Qsqrt w m s) = List.length s.
Proof.
  unfold rolling_std. now rewrite length_map, length_seq.
Qed.

Lemma length_bollinger_bands (df : DataFrame) (w : nat) (n : Q) :
  List.length (bollinger_bands Qsqrt df w n) = List.length df.
Proof.
  unfold bollinger_bands.
  rewrite length_map, !length_combine, !length_zip_with, !length_map,
    length_rolling_std, length_moving_average.
  unfold closes. rewrite length_map. lia.
Qed.

Lemma combine_nth_error {A B : Type} (a : list A) (b : list B) (i : nat)
  (x : A) (y : B) :
  nth_error (combine a b) i = Some (x, y) ->
  nth_error a i = Some x /\ nth_error b i = Some y.
Proof.
  revert b i. induction a as [|a0 a IH]; intros [|b0 b] [|i] H; simpl in *;
    try discriminate.
  - inversion H. split; reflexivity.
  - apply IH. exact H.
Qed.

Lemma zip_with_nth_inv (f : cell -> cell -> cell) (a b : Series) (i : nat)
  (c : cell) :
  nth_error (zip_with f a b) i = Some c ->
  exists x y, nth_error a i = Some x /\ nth_error b i = Some y /\ c = f x y.
Proof.
  unfold zip_with. rewrite nth_error_map.
  destruct (nth_error (combine a b) i) as [[x y]|] eqn:E; [|discriminate].
  intro H. inversion H. apply combine_nth_error in E.
  exists x, y. tauto.
Qed.

(** A row of the bands: the moving average, plus and minus one spread. *)
Lemma bollinger_bands_nth (df : DataFrame) (w : nat) (n : Q) (i : nat)
  (b : Bands) :
  nth_error (bollinger_bands Qsqrt df w n) i = Some b ->
  nth_error (moving_average df w) i = Some (ma b) /\
  exists spread, upper b = add (ma b) spread /\ lower b = sub (ma b) spread.
Proof.
  unfold bollinger_bands. rewrite nth_error_map.
  destruct (nth_error _ i) as [[m [u l]]|] eqn:E; [|discriminate].
  intro H. inversion H. subst b. cbn [ma upper lower fst snd].
  apply combine_nth_error in E. destruct E as (Hm & E).
  apply combine_nth_error in E. destruct E as (Hu & Hl).
  apply zip_with_nth_inv in Hu. destruct Hu as (m1 & s1 & Hm1 & Hs1 & ->).
  apply zip_with_nth_inv in Hl. destruct Hl as (m2 & s2 & Hm2 & Hs2 & ->).
  split; [exact Hm|].
  exists s1. split; congruence.
Qed.

(** The clamp of the score returns a finite value of the unit interval,
    whatever cell it is given. *)
Lemma clamp_cell (x : cell) :
  exists t, pmax (Fin 0) (pmin (Fin 1) x) = Fin t /\ 0 <= t <= 1.
Proof.
  unfold pmax, pmin. destruct x as [| | |q]; cbn [ltb].
  - exists 1. split; [reflexivity|lra].
  - exists 0. split; [reflexivity|lra].
  - exists 1. split; [reflexivity|lra].
  - destruct (Py.Qltb q 1) eqn:E1; cbn [ltb].
    + destruct (Py.Qltb 0 q) eqn:E0.
      * apply Qltb_lt in E1, E0. exists q. split; [reflexivity|lra].
      * exists 0. split; [reflexivity|lra].
    + exists 1. split; [reflexivity|lra].
Qed.

(** On a non-empty frame the five [iloc[-1]] reads succeed, each at the last
    row of its series. *)
Lemma last_rows (df : DataFrame) :
  df <> [] ->
  let i := (List.length df - 1)%nat in
  exists latest ma_short ma_long rsi boll,
    iloc_last df = Py.Ok latest /\
    iloc_last (moving_average df 20) = Py.Ok ma_short /\
    iloc_last (moving_average df 50) = Py.Ok ma_long /\
    iloc_last (relative_strength_index df 14) = Py.Ok rsi /\
    iloc_last (bollinger_bands Qsqrt df 20 2) = Py.Ok boll /\
    nth_error (moving_average df 20) i = Some ma_short /\
    nth_error (relative_strength_index df 14) i = Some rsi /\
    nth_error (bollinger_bands Qsqrt df 20 2) i = Some boll.
Proof.
  intros Hdf i.
  assert (Hlen : List.length df <> 0%nat) by (destruct df; simpl; congruence).
  assert (Hne : forall (A : Type) (s : list A),
            List.length s = List.length df -> s <> []).
  { intros A s E Hs. subst s. simpl in E. congruence. }
  destruct (iloc_last_ok df Hdf) as (latest & E1 & _).
  destruct (iloc_last_ok _ (Hne _ _ (length_moving_average df 20)))
    as (ma_short & E2 & N2).
  destruct (iloc_last_ok _ (Hne _ _ (length_moving_average df 50)))
    as (ma_long & E3 & _).
  destruct (iloc_last_ok _ (Hne _ _ (length_relative_strength_index df 14)))
    as (rsi & E4 & N4).
  destruct (iloc_last_ok _ (Hne _ _ (length_bollinger_bands df 20 2)))
    as (boll & E5 & N5).
  rewrite length_moving_average in N2.
  rewrite length_relative_strength_index in N4.
  rewrite length_bollinger_bands in N5.
  exists latest, ma_short, ma_long, rsi, boll. tauto.
Qed.

(** The RSI block of [score_technical] always runs: the weight is at least
    one after the three blocks. *)
Lemma subscores_weight (df : DataFrame) :
  df <> [] ->
  exists score weight,
    subscores Qsqrt df = Py.Ok (score, weight) /\ 1 <= weight.
Proof.
  intro Hdf.
  destruct (last_rows df Hdf)
    as (latest & ma_short & ma_long & rsi & boll & E1 & E2 & E3 & E4 & E5 & _ & N4 & _).
  unfold subscores. rewrite E1, E2, E3, E4, E5. cbn [Py.bind].
  assert (Hrsi : notna rsi = true).
  { pose proof (fillna_notna _ _ _ _ N4) as H. destruct rsi; simpl; congruence. }
  rewrite Hrsi.
  destruct (notna ma_short && notna ma_long);
    destruct (notna (lower boll) && notna (upper boll) &&
              negb (eqb (upper boll) (lower boll)));
    do 2 eexists; (split; [reflexivity|]); lra.
Qed.

(** With fewer than 15 rows only the RSI block runs, on the neutral 50. *)
Lemma subscores_short (df : DataFrame) :
  df <> [] -> (List.length df < 15)%nat ->
  subscores Qsqrt df = Py.Ok (Fin (0 + 0.5), 0 + 1).
Proof.
  intros Hdf Hshort.
  assert (Hlen : (0 < List.length df)%nat)
    by (destruct df; simpl; [congruence|lia]).
  destruct (last_rows df Hdf)
    as (latest & ma_short & ma_long & rsi & boll & E1 & E2 & E3 & E4 & E5 & N2 & N4 & N5).
  assert (Hi : (List.length df - 1 < List.length df)%nat) by lia.
  pose proof (moving_average_short df 20 _ Hi ltac:(lia)) as Hnan.
  assert (Hma : ma_short = NaN) by congruence.
  assert (Hrsi : rsi = Fin 50).
  { pose proof (rsi_short df 14 _ Hi ltac:(lia)) as H50. congruence. }
  assert (Hlow : lower boll = NaN).
  { destruct (bollinger_bands_nth _ _ _ _ _ N5) as (Hm & spread & _ & Hl).
    rewrite Hnan in Hm. inversion Hm as [Hm']. rewrite Hl, <- Hm'.
    reflexivity. }
  unfold subscores. rewrite E1, E2, E3, E4, E5. cbn [Py.bind].
  rewrite Hma, Hrsi, Hlow. reflexivity.
Qed.

(** The technical score is a finite value of the unit interval. *)
Lemma score_technical_range (df : DataFrame) :
  exists t, score_technical Qsqrt df = Py.Ok (Fin t) /\ 0 <= t <= 1.
Proof.
  unfold score_technical. destruct df as [|p df].
  - exists 0.5. split; [reflexivity|lra].
  - cbn [empty].
    destruct (subscores_weight (p :: df) ltac:(discriminate))
      as (score & weight & E & Hw).
    rewrite E. cbn [Py.bind].
    destruct (Qeq_bool weight 0).
    + exists 0.5. split; [reflexivity|lra].
    + destruct (clamp_cell (div score (Fin weight))) as (t & Et & Ht).
      exists t. rewrite Et. split; [reflexivity|exact Ht].
Qed.

(** C9: on a non-empty series the RSI sub-score always contributes, so the
    weight is at least one, the final fallback of [score_technical] is not
    taken and the result is the clamped mean of the sub-scores; with fewer
    than 15 rows the RSI sub-score on the neutral 50 is the only one and the
    score is exactly 0.5. *)
Theorem score_technical_never_falls_back (df : DataFrame) :
  df <> [] ->
  exists score weight,
    subscores Qsqrt df = Py.Ok (score, weight) /\
    1 <= weight /\ Qeq_bool weight 0 = false /\
    score_technical Qsqrt df =
      Py.Ok (pmax (Fin 0) (pmin (Fin 1) (div score (Fin weight)))) /\
    ((List.length df < 15)%nat ->
     nth_error (relative_strength_index df 14) (List.length df - 1) = Some (Fin 50) /\
     score = Fin (rsi_band (Fin 50)) /\ weight == 1 /\
     score_technical Qsqrt df = Py.Ok (Fin 0.5)).
Proof.
  intro Hdf.
  destruct (subscores_weight df Hdf) as (score & weight & E & Hw).
  assert (H0 : Qeq_bool weight 0 = false) by (apply Qeq_bool_false; lra).
  assert (Hst : score_technical Qsqrt df =
                Py.Ok (pmax (Fin 0) (pmin (Fin 1) (div score (Fin weight))))).
  { unfold score_technical. destruct df as [|p df]; [contradiction|].
    cbn [empty]. rewrite E. cbn [Py.bind]. rewrite H0. reflexivity. }
  exists score, weight. repeat apply conj; try assumption.
  intro Hshort.
  pose proof (subscores_short df Hdf Hshort) as Es.
  rewrite E in Es. inversion Es as [[Hscore Hweight]].
  assert (Hlen : (0 < List.length df)%nat)
    by (destruct df; simpl; [congruence|lia]).
  repeat apply conj.
  - apply rsi_short; lia.
  - reflexivity.
  - reflexivity.
  - rewrite Hst, Hscore, Hweight. reflexivity.
Qed.

End ScoreFacts.

(** * Properties of the composite score *)

Section ScoringFacts.
Import Config Scoring.

Variable Qsqrt : Q -> Q.

(** [compute_scores] returns for every input, with the raw weighted sum of
    the three scores as the composite. *)
Lemma compute_scores_returns
  (cfg : AppConfig) (prices : Technical.DataFrame)
  (fund : Fundamental.FundamentalSnapshot) (news : list Sentiment.NewsItem) :
  exists t f s,
    0 <= t <= 1 /\ 0 <= f <= 1 /\
    Sentiment.aggregate_sentiment news = Py.Ok s /\
    compute_scores Qsqrt cfg prices fund news =
    Py.Ok {| technical_score := Technical.Fin t;
             fundamental_score := f;
             sentiment_score := s;
             composite_score :=
               Technical.Fin (t * technical (weights cfg)
                              + f * fundamental (weights cfg)
                              + s * sentiment (weights cfg)) |}.
Proof.
  destruct (score_technical_range Qsqrt prices) as (t & Et & Ht).
  destruct (score_fundamentals_refines fund) as (f & Ef & _ & Hf & _).
  destruct (aggregate_sentiment_mean news) as (s & Es & _).
  exists t, f, s. split; [exact Ht|]. split; [exact Hf|]. split; [exact Es|].
  unfold compute_scores. rewrite Et, Ef, Es. reflexivity.
Qed.

Lemma weighted_sum_range (wt wf ws t f s : Q) :
  0 <= wt -> 0 <= wf -> 0 <= ws -> wt + wf + ws == 1 ->
  0 <= t <= 1 -> 0 <= f <= 1 -> 0 <= s <= 1 ->
  0 <= t * wt + f * wf + s * ws <= 1.
Proof.
  intros Hwt Hwf Hws Hsum Ht Hf Hs.
  assert (0 <= t * wt) by (apply Qmult_le_0_compat; lra).
  assert (0 <= f * wf) by (apply Qmult_le_0_compat; lra).
  assert (0 <= s * ws) by (apply Qmult_le_0_compat; lra).
  assert (0 <= (1 - t) * wt) by (apply Qmult_le_0_compat; lra).
  assert (0 <= (1 - f) * wf) by (apply Qmult_le_0_compat; lra).
  assert (0 <= (1 - s) * ws) by (apply Qmult_le_0_compat; lra).
  split; lra.
Qed.

(** The three scores [compute_scores] combines are the values of the three
    scorers on its arguments, and the composite is their weighted sum. *)
Lemma compute_scores_scorers
  (cfg : AppConfig) (prices : Technical.DataFrame)
  (fund : Fundamental.FundamentalSnapshot) (news : list Sentiment.NewsItem) :
  exists t f s,
    Technical.score_technical Qsqrt prices = Py.Ok (Technical.Fin t) /\
    Fundamental.score_fundamentals fund = Py.Ok f /\
    Sentiment.aggregate_sentiment news = Py.Ok s /\
    0 <= t <= 1 /\ 0 <= f <= 1 /\
    compute_scores Qsqrt cfg prices fund news =
    Py.Ok {| technical_score := Technical.Fin t;
             fundamental_score := f;
             sentiment_score := s;
             composite_score :=
               Technical.Fin (t * technical (weights cfg)
                              + f * fundamental (weights cfg)
                              + s * sentiment (weights cfg)) |}.
Proof.
  destruct (score_technical_range Qsqrt prices) as (t & Et & Ht).
  destruct (score_fundamentals_refines fund) as (f & Ef & _ & Hf & _).
  destruct (aggregate_sentiment_mean news) as (s & Es & _).
  exists t, f, s. repeat (split; [assumption|]).
  unfold compute_scores. rewrite Et, Ef, Es. reflexivity.
Qed.

(** C3: with non-negative weights that sum to one, every score triple in
    the unit cube has a weighted sum in [[0,1]]; and [compute_scores]
    returns a record that holds the values of [score_technical],
    [score_fundamentals] and [aggregate_sentiment] on its arguments together
    with their weighted sum as the composite, which therefore lies in
    [[0,1]] when the three scores do (the technical and the fundamental
    score always do; the sentiment score does when every item keeps the
    input contract). *)
Theorem composite_in_unit_interval
  (cfg : AppConfig) (prices : Technical.DataFrame)
  (fund : Fundamental.FundamentalSnapshot) (news : list Sentiment.NewsItem) :
  0 <= technical (weights cfg) ->
  0 <= fundamental (weights cfg) ->
  0 <= sentiment (weights cfg) ->
  technical (weights cfg) + fundamental (weights cfg) + sentiment (weights cfg) == 1 ->
  (forall t f s : Q,
     0 <= t <= 1 -> 0 <= f <= 1 -> 0 <= s <= 1 ->
     0 <= Spec.composite (weights cfg) t f s <= 1) /\
  exists t f s c,
    Technical.score_technical Qsqrt prices = Py.Ok (Technical.Fin t) /\
    Fundamental.score_fundamentals fund = Py.Ok f /\
    Sentiment.aggregate_sentiment news = Py.Ok s /\
    compute_scores Qsqrt cfg prices fund news =
    Py.Ok {| technical_score := Technical.Fin t;
             fundamental_score := f;
             sentiment_score := s;
             composite_score := Technical.Fin c |} /\
    c == Spec.composite (weights cfg) t f s /\
    0 <= t <= 1 /\ 0 <= f <= 1 /\
    (0 <= s <= 1 -> 0 <= c <= 1) /\
    (Forall (fun it => -1 <= Sentiment.sentiment it <= 1) news ->
     0 <= s <= 1 /\ 0 <= c <= 1).
Proof.
  intros Hwt Hwf Hws Hsum. split.
  - intros t f s Ht Hf Hs. unfold Spec.composite.
    now apply weighted_sum_range.
  - destruct (compute_scores_scorers cfg prices fund news)
      as (t & f & s & Et & Ef & Es & Ht & Hf & E).
    exists t, f, s. eexists.
    split; [exact Et|]. split; [exact Ef|]. split; [exact Es|].
    split; [exact E|]. split; [reflexivity|].
    split; [exact Ht|]. split; [exact Hf|].
    split.
    + intro Hs. now apply weighted_sum_range.
    + intro Hnews.
      destruct (aggregate_sentiment_range news Hnews) as (s' & Es' & Hs').
      assert (s' = s) by congruence. subst s'.
      split; [exact Hs'|]. now apply weighted_sum_range.
Qed.

(** C10: [compute_scores] checks nothing about the weights and does not
    raise: for every configuration it returns the raw weighted sum.  The
    sum-to-one check lives in the validator of [WeightConfig]: the triple
    [(1, 1, 1)] is refused there (and the default triple accepted), while
    the scoring engine, given that triple and neutral inputs, returns a
    composite of 1.5. *)
Theorem compute_scores_does_not_validate :
  (forall (cfg : AppConfig) (prices : Technical.DataFrame)
          (fund : Fundamental.FundamentalSnapshot)
          (news : list Sentiment.NewsItem),
     exists res t c,
       compute_scores Qsqrt cfg prices fund news = Py.Ok res /\
       technical_score res = Technical.Fin t /\
       composite_score res = Technical.Fin c /\
       c == Spec.composite (weights cfg) t (fundamental_score res)
              (sentiment_score res)) /\
  _ensure_total 1 (Some 1, Some 1) = Py.Raise Py.ValueError /\
  make_WeightConfig 1 1 1 = Py.Raise Py.ValueError /\
  make_WeightConfig 0.6 0.25 0.15 =
    Py.Ok {| technical := 0.6; fundamental := 0.25; sentiment := 0.15 |} /\
  (exists res c,
     compute_scores Qsqrt
       {| weights := {| technical := 1; fundamental := 1; sentiment := 1 |};
          risk := {| max_position_size_pct := 0.05; max_daily_loss_pct := 0.02;
                     stop_loss_pct := 0.03; take_profit_pct := 0.06 |} |}
       []
       {| Fundamental.symbol := "AAPL"; Fundamental.pe_ratio := None;
          Fundamental.peg_ratio := None; Fundamental.debt_to_equity := None;
          Fundamental.revenue_growth_pct := None;
          Fundamental.earnings_growth_pct := None |}
       [] = Py.Ok res /\
     composite_score res = Technical.Fin c /\ c == 1.5).
Proof.
  split; [|repeat split].
  - intros cfg prices fund news.
    destruct (compute_scores_returns cfg prices fund news)
      as (t & f & s & _ & _ & _ & E).
    eexists. exists t. eexists. split; [exact E|].
    repeat split; reflexivity.
  - do 2 eexists. split; [reflexivity|]. split; [reflexivity|].
    vm_compute. reflexivity.
Qed.

End ScoringFacts.

(** * Worked examples *)

Section Witnesses.
Import Technical Examples.

Lemma moving_average_spec_witness :
  nth_error (moving_average (frame [1; 2; 3; 4; 6]) 3) 1 = Some NaN /\
  exists m, nth_error (moving_average (frame [1; 2; 3; 4; 6]) 3) 4 = Some (Fin m) /\
            m == 13 / 3.
Proof.
  split.
  - apply (proj1 (moving_average_spec (frame [1; 2; 3; 4; 6]) 3 1
                    ltac:(lia) ltac:(simpl; lia))).
    lia.
  - destruct (proj2 (moving_average_spec (frame [1; 2; 3; 4; 6]) 3 4
                       ltac:(lia) ltac:(simpl; lia)) ltac:(lia))
      as (m & Hm & E).
    exists m. split; [exact Hm|]. rewrite E. vm_compute. reflexivity.
Defined.

Lemma rsi_edge_cases_witness :
  (exists r,
     nth_error (relative_strength_index (frame (rising 17)) 14) 15 = Some (Fin r) /\
     r == 100) /\
  nth_error (relative_strength_index (frame (rising 17)) 14) 13 = Some (Fin 50) /\
  nth_error
    (relative_strength_index (frame [7; 7; 7; 7; 7; 7; 7; 7; 7; 7; 7; 7; 7; 7; 7; 7]) 14)
    15 = Some (Fin 50).
Proof.
  split; [|split].
  - eapply (proj1 (rsi_edge_cases (frame (rising 17)) 14 15
                     ltac:(lia) ltac:(simpl; lia))).
    + vm_compute. reflexivity.
    + vm_compute. reflexivity.
    + vm_compute. reflexivity.
    + vm_compute. reflexivity.
  - apply (proj1 (proj2 (proj2 (proj2 (proj2
             (rsi_edge_cases (frame (rising 17)) 14 13
                ltac:(lia) ltac:(simpl; lia))))))).
    lia.
  - apply (proj1 (proj2 (proj2 (proj2 (proj2 (proj2
             (rsi_edge_cases
                (frame [7; 7; 7; 7; 7; 7; 7; 7; 7; 7; 7; 7; 7; 7; 7; 7]) 14 15
                ltac:(lia) ltac:(simpl; lia)))))))).
    + lia.
    + intros k Hk.
      assert (Hcase : (k = 1 \/ k = 2 \/ k = 3 \/ k = 4 \/ k = 5 \/ k = 6 \/
                       k = 7 \/ k = 8 \/ k = 9 \/ k = 10 \/ k = 11 \/ k = 12 \/
                       k = 13 \/ k = 14 \/ k = 15)%nat) by lia.
      repeat (destruct Hcase as [->|Hcase]; [reflexivity|]).
      subst k. reflexivity.
Defined.

Lemma score_technical_never_falls_back_witness :
  score_technical Qsqrt_approx (frame (rising 10)) = Py.Ok (Fin 0.5).
Proof.
  destruct (score_technical_never_falls_back Qsqrt_approx (frame (rising 10))
              ltac:(discriminate))
    as (score & weight & _ & _ & _ & _ & H).
  destruct (H ltac:(simpl; lia)) as (_ & _ & _ & E).
  exact E.
Defined.

Lemma composite_in_unit_interval_witness :
  exists t f s c,
    score_technical Qsqrt_approx (frame (rising 10)) = Py.Ok (Fin t) /\
    Fundamental.score_fundamentals derived_fundamentals = Py.Ok f /\
    Sentiment.aggregate_sentiment neutral_news = Py.Ok s /\
    Scoring.compute_scores Qsqrt_approx default_config (frame (rising 10))
      derived_fundamentals neutral_news =
    Py.Ok {| Scoring.technical_score := Fin t;
             Scoring.fundamental_score := f;
             Scoring.sentiment_score := s;
             Scoring.composite_score := Fin c |} /\
    0 <= c <= 1.
Proof.
  destruct (composite_in_unit_interval Qsqrt_approx default_config
              (frame (rising 10)) derived_fundamentals neutral_news)
    as (_ & t & f & s & c & Et & Ef & Es & E & _ & _ & _ & _ & Hnews).
  - simpl. lra.
  - simpl. lra.
  - simpl. lra.
  - simpl. lra.
  - exists t, f, s, c. split; [exact Et|]. split; [exact Ef|].
    split; [exact Es|]. split; [exact E|].
    apply Hnews. repeat constructor; simpl; lra.
Defined.

End Witnesses.

(** * Further properties of the position sizer *)

Section RiskBounds.
Import Config Risk.

(** What the sizer returns when its guard passes, for parameters in the
    ranges the configuration allows. *)
Lemma position_bounds (capital price : Q) (cfg : RiskConfig) :
  0 <= capital -> 0 < price ->
  0 <= max_position_size_pct cfg <= 1 ->
  stop_loss_pct cfg <= 1 ->
  0 <= take_profit_pct cfg ->
  0 < price - price * (1 - stop_loss_pct cfg) ->
  exists r, compute_position_size capital price cfg = Py.Ok r /\
    0 <= stop_loss_price r < price /\
    price <= take_profit_price r /\
    0 <= capital_at_risk r <= capital /\
    0 <= position_size r /\
    position_size r <= capital / price /\
    position_size r <= capital_at_risk r / (price - stop_loss_price r).
Proof.
  intros Hcap Hprice Hmax Hstop Htake Hrisk.
  destruct (compute_position_size_returns capital price cfg Hrisk ltac:(lra))
    as (r & Hr & Hcar & Hsl & Htp & Hps).
  exists r. split; [exact Hr|].
  rewrite Hps, Hsl, Htp, Hcar.
  set (rpu := price - price * (1 - stop_loss_pct cfg)) in *.
  set (car := capital * max_position_size_pct cfg) in *.
  assert (Hcar0 : 0 <= car) by (apply Qmult_le_0_compat; lra).
  assert (Hcar1 : 0 <= capital * (1 - max_position_size_pct cfg))
    by (apply Qmult_le_0_compat; lra).
  assert (H1 : 0 <= price * (1 - stop_loss_pct cfg))
    by (apply Qmult_le_0_compat; lra).
  assert (H3 : 0 <= price * take_profit_pct cfg)
    by (apply Qmult_le_0_compat; lra).
  assert (Hq1 : 0 <= car / rpu) by (apply Qle_shift_div_l; lra).
  assert (Hq2 : 0 <= capital / price) by (apply Qle_shift_div_l; lra).
  assert (Hm1 : Qmin (car / rpu) (capital / price) <= car / rpu)
    by apply Q.le_min_l.
  assert (Hm2 : Qmin (car / rpu) (capital / price) <= capital / price)
    by apply Q.le_min_r.
  assert (Hm0 : 0 <= Qmin (car / rpu) (capital / price))
    by (apply Q.min_glb; assumption).
  unfold car, rpu in *.
  repeat split; try assumption; lra.
Qed.

(** X1: for a non-negative capital, a positive price, a position fraction
    in [[0,1]], a stop-loss fraction of at most 1, a non-negative
    take-profit fraction and a positive risk per unit (the guard of the
    sizer passes), the sizer returns; the stop-loss price lies in
    [[0, price)), the take-profit price is at least the price, the capital
    at risk lies between 0 and the capital, and the position size is
    non-negative and at most each of the two bounds: the capital over the
    price, and the capital at risk over the risk per unit. *)
Theorem position_within_budgets (capital price : Q) (cfg : RiskConfig) :
  0 <= capital -> 0 < price ->
  0 <= max_position_size_pct cfg <= 1 ->
  stop_loss_pct cfg <= 1 ->
  0 <= take_profit_pct cfg ->
  0 < price - price * (1 - stop_loss_pct cfg) ->
  exists r, compute_position_size capital price cfg = Py.Ok r /\
    0 <= stop_loss_price r < price /\
    price <= take_profit_price r /\
    0 <= capital_at_risk r <= capital /\
    0 <= position_size r /\
    position_size r <= capital / price /\
    position_size r <= capital_at_risk r / (price - stop_loss_price r).
Proof.
  exact (position_bounds capital price cfg).
Qed.

End RiskBounds.

(** * config.py: validation of the risk parameters and [ConfigManager]

    The manager is modelled by the configuration it holds; writing the file
    ([save]) is left out.  An update that raises leaves the configuration as
    it was, since the assignment comes after the validation. *)

Module ConfigManager.
Import Config.

(** Construction of a [RiskConfig]: the four field constraints. *)
Definition make_RiskConfig (mp mdl sl tp : Q) : Py.result RiskConfig :=
  if in_unit mp && in_unit mdl && in_unit sl && in_unit tp then
    Py.Ok {| max_position_size_pct := mp; max_daily_loss_pct := mdl;
             stop_loss_pct := sl; take_profit_pct := tp |}
  else Py.Raise Py.ValueError.

(** The constructor [WeightConfig], each keyword given or left out.  A field that
    is given is checked against its constraint; a field left out takes its
    default, unchecked.  The validator is attached to [sentiment] without
    [always=True]: it runs only when [sentiment] is given (and passed its
    own constraint), with the fields before it in [values], defaults
    included, those that failed their constraint left out. *)
Definition make_WeightConfig_kwargs (t f s : option Q)
  : Py.result WeightConfig :=
  let field (given : option Q) (default : Q) : option Q :=
    match given with
    | Some v => if in_unit v then Some v else None
    | None => Some default
    end in
  let vt := field t 0.6 in
  let vf := field f 0.25 in
  match s with
  | Some s' =>
      if in_unit s' then
        v <- _ensure_total s' (vt, vf) ;;
        match vt, vf with
        | Some t', Some f' =>
            Py.Ok {| technical := t'; fundamental := f'; sentiment := v |}
        | _, _ => Py.Raise Py.ValueError
        end
      else Py.Raise Py.ValueError
  | None =>
      match vt, vf with
      | Some t', Some f' =>
          Py.Ok {| technical := t'; fundamental := f'; sentiment := 0.15 |}
      | _, _ => Py.Raise Py.ValueError
      end
  end.

(** [update_weights]. *)
Definition update_weights (config : AppConfig) (t f s : Q)
  : Py.result AppConfig :=
  w <- make_WeightConfig t f s ;;
  Py.Ok {| weights := w; risk := risk config |}.

(** The keyword arguments of [update_risk], among the four fields. *)
Record RiskUpdate : Type := {
  new_max_position_size_pct : option Q;
  new_max_daily_loss_pct : option Q;
  new_stop_loss_pct : option Q;
  new_take_profit_pct : option Q
}.

Definition or_else (new : option Q) (old : Q) : Q :=
  match new with
  | Some v => v
  | None => old
  end.

(** [risk.model_copy(update=kwargs)]: no validation. *)
Definition model_copy (r : RiskConfig) (kwargs : RiskUpdate) : RiskConfig :=
  {| max_position_size_pct :=
       or_else (new_max_position_size_pct kwargs) (max_position_size_pct r);
     max_daily_loss_pct :=
       or_else (new_max_daily_loss_pct kwargs) (max_daily_loss_pct r);
     stop_loss_pct := or_else (new_stop_loss_pct kwargs) (stop_loss_pct r);
     take_profit_pct := or_else (new_take_profit_pct kwargs) (take_profit_pct r) |}.

(** [update_risk]: the copy is validated as a whole. *)
Definition update_risk (config : AppConfig) (kwargs : RiskUpdate)
  : Py.result AppConfig :=
  let updated := model_copy (risk config) kwargs in
  r <- make_RiskConfig (max_position_size_pct updated) (max_daily_loss_pct updated)
         (stop_loss_pct updated) (take_profit_pct updated) ;;
  Py.Ok {| weights := weights config; risk := r |}.

End ConfigManager.

(** * Properties of the validated configuration *)

Section ConfigFacts.
Import Config ConfigManager.

Lemma in_unit_range (v : Q) : in_unit v = true <-> 0 <= v <= 1.
Proof.
  unfold in_unit. rewrite andb_true_iff, !Qle_bool_iff. reflexivity.
Qed.

Lemma ensure_total_ok (v t f : Q) :
  _ensure_total v (Some t, Some f) = Py.Ok v <->
  Qabs (v + t + f - 1) <= 1 # 1000000.
Proof.
  unfold _ensure_total. cbn [fst snd].
  destruct (Py.Qltb (1 # 1000000) (Qabs (v + t + f - 1))) eqn:E.
  - apply Qltb_lt in E. split; [discriminate|]. intro H. lra.
  - apply Qltb_ge in E. tauto.
Qed.

Lemma ensure_total_result (v : Q) (values : option Q * option Q) (r : Q) :
  _ensure_total v values = Py.Ok r -> r = v.
Proof.
  unfold _ensure_total. destruct (Py.Qltb _ _); [discriminate|].
  intro H. now inversion H.
Qed.

(** The weights the constructor accepts. *)
Lemma make_WeightConfig_ok (t f s : Q) (w : WeightConfig) :
  make_WeightConfig t f s = Py.Ok w <->
  (0 <= t <= 1 /\ 0 <= f <= 1 /\ 0 <= s <= 1 /\
   Qabs (s + t + f - 1) <= 1 # 1000000 /\
   w = {| technical := t; fundamental := f; sentiment := s |}).
Proof.
  unfold make_WeightConfig.
  destruct (in_unit t) eqn:Et, (in_unit f) eqn:Ef, (in_unit s) eqn:Es;
    try (split; [discriminate|];
         intros (Ht & Hf & Hs & _);
         apply in_unit_range in Ht, Hf, Hs; congruence).
  - apply in_unit_range in Et, Ef, Es.
    destruct (_ensure_total s (Some t, Some f)) as [v|e] eqn:E; cbn [Py.bind].
    + pose proof (ensure_total_result _ _ _ E) as ->.
      apply ensure_total_ok in E.
      split.
      * intro H. inversion H. tauto.
      * intros (_ & _ & _ & _ & ->). reflexivity.
    + split; [discriminate|].
      intros (_ & _ & _ & Habs & _).
      apply ensure_total_ok in Habs. congruence.
  - split; [|intros (Ht & Hf & Hs & _); apply in_unit_range in Hf; congruence].
    destruct (_ensure_total _ _); cbn [Py.bind]; discriminate.
  - split; [|intros (Ht & Hf & Hs & _); apply in_unit_range in Ht; congruence].
    destruct (_ensure_total _ _); cbn [Py.bind]; discriminate.
  - split; [|intros (Ht & Hf & Hs & _); apply in_unit_range in Ht; congruence].
    destruct (_ensure_total _ _); cbn [Py.bind]; discriminate.
Qed.

(** X3: what the constructor of [WeightConfig] checks.  With the three
    weights given it is the constructor [update_weights] calls: a weight
    outside [[0,1]] raises; weights in [[0,1]] whose sum is within [0.9e-6]
    of one are accepted and kept unchanged; a sum that is [1.1e-6] or more
    away from one raises (the tolerance is [1e-6]; the tenth on either side
    keeps the statement clear of the rounding of the sum).  With [sentiment]
    left out the validator does not run: the constructor succeeds exactly
    when the two given weights lie in [[0,1]], whatever their sum, with a
    sentiment weight of 0.15; so [WeightConfig(technical=1, fundamental=1)]
    is accepted with a sum of 2.15. *)
Theorem weight_validation (t f s : Q) :
  make_WeightConfig_kwargs (Some t) (Some f) (Some s) = make_WeightConfig t f s /\
  (~ (0 <= t <= 1 /\ 0 <= f <= 1 /\ 0 <= s <= 1) ->
   make_WeightConfig t f s = Py.Raise Py.ValueError) /\
  (0 <= t <= 1 -> 0 <= f <= 1 -> 0 <= s <= 1 ->
   Qabs (s + t + f - 1) <= 9 # 10000000 ->
   make_WeightConfig t f s =
   Py.Ok {| technical := t; fundamental := f; sentiment := s |}) /\
  (11 # 10000000 <= Qabs (s + t + f - 1) ->
   make_WeightConfig t f s = Py.Raise Py.ValueError) /\
  (forall w,
     make_WeightConfig_kwargs (Some t) (Some f) None = Py.Ok w <->
     0 <= t <= 1 /\ 0 <= f <= 1 /\
     w = {| technical := t; fundamental := f; sentiment := 0.15 |}) /\
  (~ (0 <= t <= 1 /\ 0 <= f <= 1) ->
   make_WeightConfig_kwargs (Some t) (Some f) None = Py.Raise Py.ValueError) /\
  make_WeightConfig_kwargs (Some 1) (Some 1) None =
  Py.Ok {| technical := 1; fundamental := 1; sentiment := 0.15 |}.
Proof.
  assert (Hraise : forall e,
            make_WeightConfig t f s = Py.Raise e -> e = Py.ValueError).
  { intros e E. unfold make_WeightConfig, _ensure_total in E.
    destruct (in_unit s); [|now inversion E].
    cbn [fst snd] in E.
    destruct (Py.Qltb _ _); cbn [Py.bind] in E; [now inversion E|].
    destruct (in_unit t), (in_unit f); now inversion E. }
  assert (Hno : ~ (0 <= t <= 1 /\ 0 <= f <= 1 /\ 0 <= s <= 1 /\
                   Qabs (s + t + f - 1) <= 1 # 1000000) ->
                make_WeightConfig t f s = Py.Raise Py.ValueError).
  { intro Hbad. destruct (make_WeightConfig t f s) as [w|e] eqn:E.
    - apply make_WeightConfig_ok in E. tauto.
    - now rewrite (Hraise e eq_refl). }
  split; [|split; [|split; [|split; [|split; [|split]]]]].
  - unfold make_WeightConfig_kwargs, make_WeightConfig.
    destruct (in_unit t), (in_unit f), (in_unit s); reflexivity.
  - intro Hbad. apply Hno. tauto.
  - intros Ht Hf Hs Hsum. apply make_WeightConfig_ok.
    repeat split; try tauto. lra.
  - intro Hsum. apply Hno. intros (_ & _ & _ & H). lra.
  - intro w. unfold make_WeightConfig_kwargs.
    destruct (in_unit t) eqn:Et, (in_unit f) eqn:Ef;
      try (split; [discriminate|];
           intros (Ht & Hf & _); apply in_unit_range in Ht, Hf; congruence).
    apply in_unit_range in Et, Ef. split.
    + intro H. inversion H. tauto.
    + intros (_ & _ & ->). reflexivity.
  - intro Hbad. unfold make_WeightConfig_kwargs.
    destruct (in_unit t) eqn:Et, (in_unit f) eqn:Ef; try reflexivity.
    apply in_unit_range in Et, Ef. tauto.
  - reflexivity.
Qed.

Lemma weighted_sum_slack (wt wf ws t f s : Q) :
  0 <= wt -> 0 <= wf -> 0 <= ws ->
  Qabs (ws + wt + wf - 1) <= 1 # 1000000 ->
  0 <= t <= 1 -> 0 <= f <= 1 -> 0 <= s <= 1 ->
  0 <= t * wt + f * wf + s * ws <= 1 + (1 # 1000000).
Proof.
  intros Hwt Hwf Hws Hsum Ht Hf Hs.
  apply Qabs_Qle_condition in Hsum.
  assert (0 <= t * wt) by (apply Qmult_le_0_compat; lra).
  assert (0 <= f * wf) by (apply Qmult_le_0_compat; lra).
  assert (0 <= s * ws) by (apply Qmult_le_0_compat; lra).
  assert (0 <= (1 - t) * wt) by (apply Qmult_le_0_compat; lra).
  assert (0 <= (1 - f) * wf) by (apply Qmult_le_0_compat; lra).
  assert (0 <= (1 - s) * ws) by (apply Qmult_le_0_compat; lra).
  split; lra.
Qed.

Section CompositeSlack.

Variable Qsqrt : Q -> Q.

(** X4: after a successful [update_weights], [compute_scores] returns a
    composite between 0 and [1 + 1e-6] whenever the sentiment score lies in
    [[0,1]] (as it does when every item keeps the input contract): the
    tolerance of the validator is the only slack above one. *)
Theorem composite_after_update_weights
  (config config' : AppConfig) (t f s : Q)
  (prices : Technical.DataFrame) (fund : Fundamental.FundamentalSnapshot)
  (news : list Sentiment.NewsItem) :
  update_weights config t f s = Py.Ok config' ->
  exists res c,
    Scoring.compute_scores Qsqrt config' prices fund news = Py.Ok res /\
    Scoring.composite_score res = Technical.Fin c /\
    (0 <= Scoring.sentiment_score res <= 1 ->
     0 <= c <= 1 + (1 # 1000000)) /\
    (Forall (fun it => -1 <= Sentiment.sentiment it <= 1) news ->
     0 <= c <= 1 + (1 # 1000000)).
Proof.
  unfold update_weights. intro Hupd.
  destruct (make_WeightConfig t f s) as [w|e] eqn:Ew; [|discriminate].
  cbn [Py.bind] in Hupd. inversion Hupd as [Hcfg]. clear Hupd.
  apply make_WeightConfig_ok in Ew.
  destruct Ew as (Ht & Hf & Hs & Hsum & ->).
  destruct (compute_scores_returns Qsqrt
              {| weights := {| technical := t; fundamental := f; sentiment := s |};
                 risk := risk config |} prices fund news)
    as (ts & fs & ss & Hts & Hfs & Ess & E).
  cbn [weights technical fundamental sentiment] in E.
  do 2 eexists. split; [exact E|].
  cbn [Scoring.composite_score Scoring.sentiment_score].
  split; [reflexivity|].
  split.
  - intro Hss. apply weighted_sum_slack; lra.
  - intro Hnews.
    destruct (aggregate_sentiment_range news Hnews) as (s' & Es' & Hs').
    assert (s' = ss) by congruence. subst s'.
    apply weighted_sum_slack; lra.
Qed.

End CompositeSlack.

Lemma make_RiskConfig_ok (mp mdl sl tp : Q) (r : RiskConfig) :
  make_RiskConfig mp mdl sl tp = Py.Ok r <->
  (0 <= mp <= 1 /\ 0 <= mdl <= 1 /\ 0 <= sl <= 1 /\ 0 <= tp <= 1 /\
   r = {| max_position_size_pct := mp; max_daily_loss_pct := mdl;
          stop_loss_pct := sl; take_profit_pct := tp |}).
Proof.
  unfold make_RiskConfig.
  destruct (in_unit mp && in_unit mdl && in_unit sl && in_unit tp) eqn:E.
  - rewrite !andb_true_iff, !in_unit_range in E.
    split.
    + intro H. inversion H. tauto.
    + intros (_ & _ & _ & _ & ->). reflexivity.
  - split; [discriminate|].
    intros (H1 & H2 & H3 & H4 & _).
    apply in_unit_range in H1, H2, H3, H4.
    rewrite H1, H2, H3, H4 in E. discriminate.
Qed.

(** X5: the risk parameters left by a successful [update_risk] are within
    the ranges the sizer's bounds need.  With a stop-loss fraction of zero,
    which [update_risk] accepts, the sizer raises [ValueError] at every
    price; at a positive price whose risk per unit is positive it returns a
    stop-loss price in [[0, price)), a take-profit price between the price
    and twice the price, a capital at risk between 0 and the capital, and a
    size between 0 and the capital over the price.  It is the risk per unit
    and not the sign of the stop-loss fraction that decides: on doubles the
    fraction [1e-17] passes the field constraint and the sizer raises,
    because [1 - 1e-17] rounds to [1.0]. *)
Theorem sizing_after_update_risk
  (config config' : AppConfig) (kwargs : RiskUpdate) (capital price : Q) :
  update_risk config kwargs = Py.Ok config' ->
  (stop_loss_pct (risk config') == 0 ->
   Risk.compute_position_size capital price (risk config')
   = Py.Raise Py.ValueError) /\
  (0 <= capital -> 0 < price ->
   0 < price - price * (1 - stop_loss_pct (risk config')) ->
   exists r,
     Risk.compute_position_size capital price (risk config') = Py.Ok r /\
     0 <= Risk.stop_loss_price r < price /\
     price <= Risk.take_profit_price r <= 2 * price /\
     0 <= Risk.capital_at_risk r <= capital /\
     0 <= Risk.position_size r <= capital / price) /\
  ((0 <=? 0x1.70ef54646d497p-57)%float && (0x1.70ef54646d497p-57 <=? 1)%float
   = true /\
   Binary64.compute_position_size 10000 100
     {| Binary64.max_position_size_pct := 0x1.999999999999ap-5;
        Binary64.max_daily_loss_pct := 0x1.47ae147ae147bp-6;
        Binary64.stop_loss_pct := 0x1.70ef54646d497p-57;
        Binary64.take_profit_pct := 0x1.eb851eb851eb8p-5 |}
   = Py.Raise Py.ValueError).
Proof.
  unfold update_risk. intro Hupd.
  destruct (make_RiskConfig _ _ _ _) as [r|e] eqn:Er; [|discriminate].
  cbn [Py.bind] in Hupd. inversion Hupd as [Hcfg]. clear Hupd.
  cbn [risk].
  apply make_RiskConfig_ok in Er.
  destruct Er as (Hmp & _ & Hsl & Htp & Hr).
  assert (Hmp' : 0 <= max_position_size_pct r <= 1) by (rewrite Hr; cbn; tauto).
  assert (Hsl' : 0 <= stop_loss_pct r <= 1) by (rewrite Hr; cbn; tauto).
  assert (Htp' : 0 <= take_profit_pct r <= 1) by (rewrite Hr; cbn; tauto).
  split; [|split].
  - intro Hzero. apply compute_position_size_guard. rewrite Hzero. lra.
  - intros Hcap Hprice Hrisk.
    destruct (position_bounds capital price r Hcap Hprice Hmp'
                ltac:(lra) ltac:(lra) Hrisk)
      as (res & Hres & Hslp & Htpp & Hcar & Hps0 & Hps1 & _).
    exists res. split; [exact Hres|].
    destruct (compute_position_size_returns capital price r Hrisk ltac:(lra))
      as (res' & Hres' & _ & _ & Etp & _).
    assert (res' = res) by congruence. subst res'.
    assert (0 <= price * (1 - take_profit_pct r))
      by (apply Qmult_le_0_compat; lra).
    repeat split; try tauto. rewrite Etp. lra.
  - split; vm_compute; reflexivity.
Qed.

(** X6: [update_risk] validates the whole copy, not only the arguments: on a
    configuration whose risk parameters all lie in [[0,1]], updating the
    stop-loss alone succeeds exactly for a value in [[0,1]] and changes that
    field only; an update without arguments of a configuration that holds an
    out-of-range parameter raises. *)
Theorem update_risk_validates_copy (config : AppConfig) (v : Q) :
  let only_stop :=
    {| new_max_position_size_pct := None; new_max_daily_loss_pct := None;
       new_stop_loss_pct := Some v; new_take_profit_pct := None |} in
  let nothing :=
    {| new_max_position_size_pct := None; new_max_daily_loss_pct := None;
       new_stop_loss_pct := None; new_take_profit_pct := None |} in
  (0 <= max_position_size_pct (risk config) <= 1 ->
   0 <= max_daily_loss_pct (risk config) <= 1 ->
   0 <= take_profit_pct (risk config) <= 1 ->
   (0 <= v <= 1 ->
    update_risk config only_stop =
    Py.Ok {| weights := weights config;
             risk := {| max_position_size_pct := max_position_size_pct (risk config);
                        max_daily_loss_pct := max_daily_loss_pct (risk config);
                        stop_loss_pct := v;
                        take_profit_pct := take_profit_pct (risk config) |} |}) /\
   (~ 0 <= v <= 1 ->
    update_risk config only_stop = Py.Raise Py.ValueError)) /\
  (~ 0 <= max_daily_loss_pct (risk config) <= 1 ->
   update_risk config nothing = Py.Raise Py.ValueError).
Proof.
  intros only_stop nothing. split.
  - intros Hmp Hmdl Htp. unfold update_risk, model_copy, only_stop.
    cbn [or_else new_max_position_size_pct new_max_daily_loss_pct
         new_stop_loss_pct new_take_profit_pct
         max_position_size_pct max_daily_loss_pct stop_loss_pct take_profit_pct].
    unfold make_RiskConfig.
    apply in_unit_range in Hmp, Hmdl, Htp. rewrite Hmp, Hmdl, Htp.
    split; intro Hv.
    + apply in_unit_range in Hv. rewrite Hv. reflexivity.
    + destruct (in_unit v) eqn:E; [|reflexivity].
      apply in_unit_range in E. contradiction.
  - intro Hbad. unfold update_risk, model_copy, nothing.
    cbn [or_else new_max_position_size_pct new_max_daily_loss_pct
         new_stop_loss_pct new_take_profit_pct
         max_position_size_pct max_daily_loss_pct stop_loss_pct take_profit_pct].
    unfold make_RiskConfig.
    destruct (in_unit (max_daily_loss_pct (risk config))) eqn:E.
    + apply in_unit_range in E. contradiction.
    + rewrite andb_false_r. reflexivity.
Qed.

End ConfigFacts.

(** * Range of the RSI *)

Section RsiRange.
Import Technical.

(** A cell that is missing or finite and non-negative. *)
Definition nonneg_cell (c : cell) : Prop :=
  c = NaN \/ exists q, c = Fin q /\ 0 <= q.

Lemma Forall_firstn {A : Type} (P : A -> Prop) (n : nat) (l : list A) :
  Forall P l -> Forall P (firstn n l).
Proof.
  intro H. revert n. induction H as [|x l Hx _ IH]; intros [|n]; simpl;
    constructor; auto.
Qed.

Lemma Forall_skipn {A : Type} (P : A -> Prop) (n : nat) (l : list A) :
  Forall P l -> Forall P (skipn n l).
Proof.
  intro H. revert n. induction H as [|x l Hx Hl IH]; intros [|n]; simpl;
    try constructor; auto.
Qed.

Lemma Forall_window (P : cell -> Prop) (w : nat) (s : Series) (i : nat) :
  Forall P s -> Forall P (window w s i).
Proof.
  intro H. unfold window. now apply Forall_firstn, Forall_skipn.
Qed.

(** The steps of the closes are missing or finite. *)
Lemma diff_closes_cells (df : DataFrame) :
  Forall (fun c => c = NaN \/ exists q, c = Fin q) (diff (closes df)).
Proof.
  apply Forall_forall. intros c Hin.
  unfold diff in Hin. destruct (closes df) as [|x tl] eqn:E; [destruct Hin|].
  destruct Hin as [<-|Hin]; [now left|]. right.
  apply In_nth_error in Hin. destruct Hin as (k & Hk).
  apply zip_with_nth_inv in Hk. destruct Hk as (a & b & Ha & Hb & ->).
  assert (Hfin : forall y, In y (closes df) -> exists q, y = Fin q).
  { intros y Hy. unfold closes in Hy. apply in_map_iff in Hy.
    destruct Hy as (p & <- & _). eexists; reflexivity. }
  rewrite E in Hfin.
  destruct (Hfin a) as (qa & ->); [right; eapply nth_error_In; exact Ha|].
  destruct (Hfin b) as (qb & ->); [eapply nth_error_In; exact Hb|].
  eexists. reflexivity.
Qed.

Lemma up_moves_nonneg (df : DataFrame) : Forall nonneg_cell (up_moves df).
Proof.
  unfold up_moves, clip_lower. apply Forall_map.
  eapply Forall_impl; [|apply diff_closes_cells].
  cbv beta. intros c [->|(q & ->)]; [now left|]. right.
  cbn [ltb]. destruct (Py.Qltb q 0) eqn:E.
  - exists 0. split; [reflexivity|lra].
  - apply Qltb_ge in E. exists q. split; [reflexivity|exact E].
Qed.

Lemma down_moves_nonneg (df : DataFrame) : Forall nonneg_cell (down_moves df).
Proof.
  unfold down_moves, clip_upper. rewrite map_map. apply Forall_map.
  eapply Forall_impl; [|apply diff_closes_cells].
  cbv beta. intros c [->|(q & ->)]; [now left|]. right.
  cbn [ltb]. destruct (Py.Qltb 0 q) eqn:E; cbn [neg].
  - exists (- 0). split; [reflexivity|lra].
  - apply Qltb_ge in E. exists (- q). split; [reflexivity|lra].
Qed.

Lemma total_nonneg (qs : list Q) :
  Forall (fun q => 0 <= q) qs -> 0 <= Spec.total qs.
Proof.
  unfold Spec.total. induction 1 as [|q qs Hq _ IH]; simpl; lra.
Qed.

(** The observations of a window of such cells, as rationals. *)
Lemma observations_nonneg (win : Series) :
  Forall nonneg_cell win ->
  exists qs, observations win = map Fin qs /\ Forall (fun q => 0 <= q) qs.
Proof.
  unfold observations. induction 1 as [|c win Hc _ (qs & E & Hqs)].
  - exists []. split; [reflexivity|constructor].
  - destruct Hc as [->|(q & -> & Hq)]; simpl.
    + exists qs. tauto.
    + exists (q :: qs). rewrite E. split; [reflexivity|now constructor].
Qed.

Lemma window_mean_nonneg (m : nat) (win : Series) :
  Forall nonneg_cell win -> nonneg_cell (window_mean m win).
Proof.
  intro H. destruct (observations_nonneg win H) as (qs & E & Hqs).
  unfold window_mean. rewrite E, length_map.
  destruct ((List.length qs <? m)%nat || (List.length qs =? 0)%nat) eqn:C;
    [now left|].
  apply orb_false_iff in C. destruct C as (_ & C).
  apply Nat.eqb_neq in C. right.
  unfold total, count. rewrite fold_add_Fin, length_map.
  fold (Spec.size qs).
  assert (Hsz : 0 < Spec.size qs) by (apply size_pos; lia).
  unfold div.
  assert (E0 : Qeq_bool (Spec.size qs) 0 = false) by (apply Qeq_bool_false; lra).
  rewrite E0. eexists. split; [reflexivity|].
  rewrite fold_left_total, Qplus_0_l.
  apply Qle_shift_div_l; [exact Hsz|].
  rewrite Qmult_0_l. now apply total_nonneg.
Qed.

Lemma rolling_mean_nonneg (w m : nat) (s : Series) (i : nat) :
  (i < List.length s)%nat -> Forall nonneg_cell s ->
  exists x, nth_error (rolling_mean w m s) i = Some x /\ nonneg_cell x.
Proof.
  intros Hi H. rewrite rolling_mean_nth by exact Hi.
  eexists. split; [reflexivity|].
  now apply window_mean_nonneg, Forall_window.
Qed.

(** The RSI of two such means is finite and within [[0,100]]. *)
Lemma rsi_cell_range (x y : cell) :
  nonneg_cell x -> nonneg_cell y ->
  exists r,
    (let c := sub (Fin 100) (div (Fin 100) (add (Fin 1) (div x y))) in
     if notna c then c else Fin 50) = Fin r /\ 0 <= r <= 100.
Proof.
  intros [->|(u & -> & Hu)] Hy.
  { exists 50. split; [reflexivity|lra]. }
  destruct Hy as [->|(d & -> & Hd)].
  { exists 50. split; [reflexivity|lra]. }
  unfold div at 2.
  destruct (Qeq_bool d 0) eqn:Ed.
  - destruct (u ?= 0) eqn:Cu.
    + exists 50. split; [reflexivity|lra].
    + apply Qlt_alt in Cu. lra.
    + eexists. split; [reflexivity|]. lra.
  - apply Qeq_bool_false in Ed.
    assert (Hdpos : 0 < d) by lra.
    assert (Hrs : 0 <= u / d).
    { apply Qle_shift_div_l; [exact Hdpos|]. lra. }
    cbn [add]. unfold div.
    assert (E1 : Qeq_bool (1 + u / d) 0 = false) by (apply Qeq_bool_false; lra).
    rewrite E1. cbv zeta. cbn [sub neg add notna].
    eexists. split; [reflexivity|].
    assert (H0 : 0 <= 100 / (1 + u / d)).
    { apply Qle_shift_div_l; lra. }
    assert (H1 : 100 / (1 + u / d) <= 100).
    { apply Qle_shift_div_r; lra. }
    lra.
Qed.

(** X7: the RSI has a finite value between 0 and 100 at every row of every
    frame, for every window. *)
Theorem rsi_bounded (df : DataFrame) (w i : nat) :
  (i < List.length df)%nat ->
  exists r, nth_error (relative_strength_index df w) i = Some (Fin r) /\
            0 <= r <= 100.
Proof.
  intro Hi.
  destruct (rolling_mean_nonneg w w (up_moves df) i) as (x & Hx & Hxn);
    [now rewrite length_up_moves|apply up_moves_nonneg|].
  destruct (rolling_mean_nonneg w w (down_moves df) i) as (y & Hy & Hyn);
    [now rewrite length_down_moves|apply down_moves_nonneg|].
  destruct (rsi_cell_range x y Hxn Hyn) as (r & Er & Hr).
  exists r. split; [|exact Hr].
  rewrite (rsi_nth df w i x y Hx Hy). f_equal. exact Er.
Qed.

(** The step into a row that closes lower is a down-move and no up-move. *)
Lemma up_moves_loss (df : DataFrame) (k : nat) :
  (S k < List.length df)%nat ->
  Spec.close_at df (S k) < Spec.close_at df k ->
  exists q, nth_error (up_moves df) (S k) = Some (Fin q) /\ q == 0.
Proof.
  intros Hk Hlt. unfold up_moves, clip_lower. rewrite nth_error_map.
  rewrite (diff_nth _ _ _ _ (closes_nth df k ltac:(lia)) (closes_nth df (S k) Hk)).
  cbn [option_map sub neg add ltb].
  destruct (Py.Qltb _ 0) eqn:E.
  - eexists. split; [reflexivity|]. reflexivity.
  - apply Qltb_ge in E. lra.
Qed.

Lemma down_moves_loss (df : DataFrame) (k : nat) :
  (S k < List.length df)%nat ->
  Spec.close_at df (S k) < Spec.close_at df k ->
  exists q, nth_error (down_moves df) (S k) = Some (Fin q) /\ 0 < q.
Proof.
  intros Hk Hlt. unfold down_moves, clip_upper. rewrite !nth_error_map.
  rewrite (diff_nth _ _ _ _ (closes_nth df k ltac:(lia)) (closes_nth df (S k) Hk)).
  cbn [option_map sub neg add ltb].
  destruct (Py.Qltb 0 _) eqn:E; cbn [neg].
  - apply Qltb_lt in E. lra.
  - eexists. split; [reflexivity|]. lra.
Qed.

(** A zero mean of up-moves over a positive mean of down-moves: 0. *)
Lemma rsi_all_losses (u d : Q) :
  u == 0 -> 0 < d ->
  exists r,
    (let c := sub (Fin 100) (div (Fin 100) (add (Fin 1) (div (Fin u) (Fin d)))) in
     if notna c then c else Fin 50) = Fin r /\ r == 0.
Proof.
  intros Hu Hd. unfold div at 2.
  assert (Ed : Qeq_bool d 0 = false) by (apply Qeq_bool_false; lra).
  rewrite Ed. cbn [add]. unfold div.
  assert (Hrs : u / d == 0) by (rewrite Hu; unfold Qdiv; ring).
  assert (E1 : Qeq_bool (1 + u / d) 0 = false)
    by (apply Qeq_bool_false; rewrite Hrs; lra).
  rewrite E1. cbv zeta. cbn [sub neg add notna].
  eexists. split; [reflexivity|].
  rewrite Hrs. field.
Qed.

(** Over [w] consecutive losses ending at row [i], the rolling mean of the
    up-moves is a finite zero and that of the down-moves positive. *)
Lemma roll_losses (df : DataFrame) (w i : nat) :
  (0 < w)%nat -> (w <= i)%nat -> (i < List.length df)%nat ->
  (forall k, (i - w <= k < i)%nat ->
     Spec.close_at df (S k) < Spec.close_at df k) ->
  (exists u, nth_error (roll_up df w) i = Some (Fin u) /\ u == 0) /\
  (exists d, nth_error (roll_down df w) i = Some (Fin d) /\ 0 < d).
Proof.
  intros Hw Hwi Hi Hloss.
  assert (Hstep : forall k, (i + 1 - w <= k <= i)%nat ->
            exists k', k = S k' /\ (S k' < List.length df)%nat /\
              Spec.close_at df (S k') < Spec.close_at df k').
  { intros k Hk. destruct k as [|k']; [lia|]. exists k'.
    split; [reflexivity|]. split; [lia|]. apply Hloss. lia. }
  split.
  - apply rolling_mean_flat; try lia.
    + rewrite length_up_moves. exact Hi.
    + intros k Hk. destruct (Hstep k Hk) as (k' & -> & Hlt & Hlt').
      now apply up_moves_loss.
  - apply rolling_mean_pos; try lia.
    + rewrite length_down_moves. exact Hi.
    + intros k Hk. destruct (Hstep k Hk) as (k' & -> & Hlt & Hlt').
      now apply down_moves_loss.
Qed.

(** X8: after [window] consecutive losses the RSI is 0: the rolling mean of
    the up-moves is zero and that of the down-moves positive. *)
Theorem rsi_after_losses (df : DataFrame) (w i : nat) :
  (0 < w)%nat -> (w <= i)%nat -> (i < List.length df)%nat ->
  (forall k, (i - w <= k < i)%nat ->
     Spec.close_at df (S k) < Spec.close_at df k) ->
  (exists u, nth_error (roll_up df w) i = Some (Fin u) /\ u == 0) /\
  (exists d, nth_error (roll_down df w) i = Some (Fin d) /\ 0 < d) /\
  exists r, nth_error (relative_strength_index df w) i = Some (Fin r) /\
            r == 0.
Proof.
  intros Hw Hwi Hi Hloss.
  destruct (roll_losses df w i Hw Hwi Hi Hloss) as (Hup & Hdown).
  split; [exact Hup|]. split; [exact Hdown|].
  destruct Hup as (u & Hu & Hu0), Hdown as (d & Hd & Hd0).
  destruct (rsi_all_losses u d Hu0 Hd0) as (r & Er & Hr).
  exists r. split; [|exact Hr].
  rewrite (rsi_nth df w i _ _ Hu Hd). f_equal. exact Er.
Qed.

End RsiRange.

(** * Bollinger bands *)

Module Stats.

(** The [w] closes that end at row [i]. *)
Definition trailing_closes (df : Technical.DataFrame) (w i : nat) : list Q :=
  map (Spec.close_at df) (seq (i + 1 - w) w).

(** Sample variance: squared deviations from the mean over [n - 1]. *)
Definition sample_variance (qs : list Q) : Q :=
  Spec.total (map (fun q => (q - Spec.mean qs) * (q - Spec.mean qs)) qs)
  / (Spec.size qs - 1).

End Stats.

Section BandFacts.
Import Technical.

Variable Qsqrt : Q -> Q.

Lemma square_nonneg (a : Q) : 0 <= a * a.
Proof.
  destruct (Qlt_le_dec a 0) as [Hneg|Hpos].
  - assert (0 <= (- a) * (- a)) by (apply Qmult_le_0_compat; lra). lra.
  - apply Qmult_le_0_compat; exact Hpos.
Qed.

Lemma total_map_ext (f g : Q -> Q) (qs : list Q) :
  (forall q, f q == g q) ->
  Spec.total (map f qs) == Spec.total (map g qs).
Proof.
  intro H. unfold Spec.total. induction qs as [|q qs IH]; simpl.
  - reflexivity.
  - rewrite IH, (H q). reflexivity.
Qed.

Lemma rolling_std_nth (w m : nat) (s : Series) (i : nat) :
  (i < List.length s)%nat ->
  nth_error (rolling_std Qsqrt w m s) i =
  Some (window_std Qsqrt m (window w s i)).
Proof.
  intro Hi. unfold rolling_std. now rewrite nth_error_map_seq.
Qed.

(** The deviation of a full window of at least two finite cells. *)
Lemma window_std_Fin (m : nat) (qs : list Q) :
  (2 <= List.length qs)%nat -> (m <= List.length qs)%nat ->
  exists v, window_std Qsqrt m (map Fin qs) = Fin (Qsqrt v) /\
            v == Stats.sample_variance qs /\ 0 <= v.
Proof.
  intros Hlen Hm. unfold window_std.
  rewrite observations_Fin, length_map.
  assert (E1 : (List.length qs <? m)%nat = false) by (apply Nat.ltb_ge; lia).
  assert (E2 : (List.length qs <=? 1)%nat = false) by (apply Nat.leb_gt; lia).
  rewrite E1, E2. cbn [orb].
  unfold total, count. rewrite fold_add_Fin, length_map.
  fold (Spec.size qs).
  assert (Hsz : 2 <= Spec.size qs).
  { unfold Spec.size. change 2 with (inject_Z 2). rewrite <- Zle_Qle. lia. }
  set (mu := fold_left Qplus qs 0 / Spec.size qs).
  assert (Hmean : div (Fin (fold_left Qplus qs 0)) (Fin (Spec.size qs)) = Fin mu).
  { unfold div.
    assert (E3 : Qeq_bool (Spec.size qs) 0 = false)
      by (apply Qeq_bool_false; lra).
    rewrite E3. reflexivity. }
  cbv zeta. rewrite Hmean.
  rewrite map_map. cbn [sub neg add mul].
  rewrite <- (map_map (fun q => (q + - mu) * (q + - mu)) Fin), fold_add_Fin.
  unfold div.
  assert (E4 : Qeq_bool (Spec.size qs - 1) 0 = false)
    by (apply Qeq_bool_false; lra).
  rewrite E4.
  set (v := fold_left Qplus (map (fun q => (q + - mu) * (q + - mu)) qs) 0
            / (Spec.size qs - 1)).
  assert (Hv0 : 0 <= v).
  { unfold v. apply Qle_shift_div_l; [lra|].
    rewrite Qmult_0_l, fold_left_total, Qplus_0_l.
    apply total_nonneg. apply Forall_map, Forall_forall.
    intros q _. apply square_nonneg. }
  assert (E5 : Py.Qltb v 0 = false) by (apply Qltb_ge; exact Hv0).
  unfold sqrt. rewrite E5.
  exists v. split; [reflexivity|]. split; [|exact Hv0].
  unfold v, Stats.sample_variance.
  rewrite fold_left_total, Qplus_0_l.
  assert (Hmu : mu == Spec.mean qs).
  { unfold mu, Spec.mean. rewrite fold_left_total, Qplus_0_l. reflexivity. }
  rewrite (total_map_ext _ (fun q => (q - Spec.mean qs) * (q - Spec.mean qs))).
  - reflexivity.
  - intro q. rewrite Hmu. ring.
Qed.

Lemma combine_nth {A B : Type} (a : list A) (b : list B) (i : nat)
  (x : A) (y : B) :
  nth_error a i = Some x -> nth_error b i = Some y ->
  nth_error (combine a b) i = Some (x, y).
Proof.
  revert b i. induction a as [|a0 a IH]; intros [|b0 b] [|i] Ha Hb;
    simpl in *; try discriminate.
  - inversion Ha; inversion Hb; reflexivity.
  - now apply IH.
Qed.

(** A row of the bands from the average and the deviation at that row. *)
Lemma bollinger_bands_row (df : DataFrame) (w : nat) (n : Q) (i : nat)
  (x sd : cell) :
  nth_error (moving_average df w) i = Some x ->
  nth_error (rolling_std Qsqrt w w (closes df)) i = Some sd ->
  nth_error (bollinger_bands Qsqrt df w n) i =
  Some {| ma := x; upper := add x (mul (Fin n) sd);
          lower := sub x (mul (Fin n) sd) |}.
Proof.
  intros Hx Hsd. unfold bollinger_bands.
  assert (Hs : nth_error (map (mul (Fin n)) (rolling_std Qsqrt w w (closes df))) i
               = Some (mul (Fin n) sd)) by (rewrite nth_error_map, Hsd; reflexivity).
  rewrite nth_error_map.
  rewrite (combine_nth _ _ i x (add x (mul (Fin n) sd), sub x (mul (Fin n) sd)) Hx).
  - reflexivity.
  - apply combine_nth; now apply zip_with_nth.
Qed.

Lemma window_std_single (m : nat) (win : Series) :
  (List.length win <= 1)%nat -> window_std Qsqrt m win = NaN.
Proof.
  intro H. unfold window_std, observations.
  pose proof (filter_length_le notna win) as Hle.
  assert (E : (List.length (filter notna win) <=? 1)%nat = true)
    by (apply Nat.leb_le; lia).
  rewrite E, orb_true_r. reflexivity.
Qed.

(** The deviation at a row with a full window of at least two closes. *)
Lemma rolling_std_full (df : DataFrame) (w i : nat) :
  (2 <= w)%nat -> (w <= i + 1)%nat -> (i < List.length df)%nat ->
  exists v, nth_error (rolling_std Qsqrt w w (closes df)) i = Some (Fin (Qsqrt v)) /\
            v == Stats.sample_variance (Stats.trailing_closes df w i) /\ 0 <= v.
Proof.
  intros Hw Hfull Hi.
  rewrite rolling_std_nth by (unfold closes; now rewrite length_map).
  rewrite window_closes.
  replace (i + 1 - (i + 1 - w))%nat with w by lia.
  rewrite closes_by_index by lia.
  destruct (window_std_Fin w (map (Spec.close_at df) (seq (i + 1 - w) w)))
    as (v & E & Hv & Hv0); try (rewrite length_map, length_seq; lia).
  exists v. rewrite E. tauto.
Qed.

(** X9: the rows of [bollinger_bands].  Before [window] rows are available
    the three columns are NaN; with a window of one row the average is the
    close but the bands are NaN (one observation has no sample deviation);
    otherwise the three are finite, the average is the trailing mean, and
    the bands lie [num_std] deviations above and below it, the deviation
    being the square root of the sample variance of the trailing closes. *)
Theorem bollinger_bands_rows (df : DataFrame) (w : nat) (n : Q) (i : nat) :
  (i < List.length df)%nat ->
  ((i + 1 < w)%nat ->
   nth_error (bollinger_bands Qsqrt df w n) i =
   Some {| ma := NaN; upper := NaN; lower := NaN |}) /\
  (w = 1%nat ->
   exists m, nth_error (bollinger_bands Qsqrt df w n) i =
             Some {| ma := Fin m; upper := NaN; lower := NaN |} /\
             m == Spec.close_at df i) /\
  ((2 <= w)%nat -> (w <= i + 1)%nat ->
   exists m v u l,
     nth_error (bollinger_bands Qsqrt df w n) i =
     Some {| ma := Fin m; upper := Fin u; lower := Fin l |} /\
     m == Spec.trailing_mean df w i /\
     v == Stats.sample_variance (Stats.trailing_closes df w i) /\ 0 <= v /\
     u == m + n * Qsqrt v /\ l == m - n * Qsqrt v /\
     (0 <= n -> 0 <= Qsqrt v -> l <= m <= u)).
Proof.
  intro Hi.
  assert (Hlen : (i < List.length (closes df))%nat)
    by (unfold closes; now rewrite length_map).
  split; [|split].
  - intro Hshort.
    rewrite (bollinger_bands_row df w n i NaN _
               (moving_average_short df w i Hi Hshort)
               (rolling_std_nth w w _ i Hlen)).
    reflexivity.
  - intros ->.
    destruct (moving_average_full df 1 i ltac:(lia) Hi ltac:(lia))
      as (m & Hm & Em).
    exists m. split.
    + rewrite (bollinger_bands_row df 1 n i (Fin m) _ Hm
                 (rolling_std_nth 1 1 _ i Hlen)).
      rewrite window_std_single by (rewrite (length_window _ _ _ Hlen); lia).
      reflexivity.
    + rewrite Em. unfold Spec.trailing_mean, Spec.mean, Spec.total, Spec.size.
      replace (i + 1 - 1)%nat with i by lia. simpl. field.
  - intros Hw Hfull.
    destruct (moving_average_full df w i ltac:(lia) Hi Hfull) as (m & Hm & Em).
    destruct (rolling_std_full df w i Hw Hfull Hi) as (v & Hv & Ev & Hv0).
    exists m, v. do 2 eexists.
    split.
    + rewrite (bollinger_bands_row df w n i _ _ Hm Hv). reflexivity.
    + split; [exact Em|]. split; [exact Ev|]. split; [exact Hv0|].
      split; [reflexivity|]. split; [ring|].
      intros Hn Hs.
      assert (0 <= n * Qsqrt v) by (apply Qmult_le_0_compat; assumption).
      lra.
Qed.

End BandFacts.

(** * The technical score of a flat series *)

Section FlatSeries.
Import Technical.

Variable Qsqrt : Q -> Q.

Lemma const_total (c : Q) (qs : list Q) :
  Forall (fun q => q == c) qs -> Spec.total qs == Spec.size qs * c.
Proof.
  unfold Spec.total, Spec.size. induction 1 as [|q qs Hq _ IH].
  - simpl. ring.
  - cbn [fold_right List.length].
    rewrite Nat2Z.inj_succ, <- Z.add_1_l, inject_Z_plus, IH, Hq.
    change (inject_Z 1) with 1. ring.
Qed.

Lemma mean_const (c : Q) (qs : list Q) :
  (0 < List.length qs)%nat -> Forall (fun q => q == c) qs ->
  Spec.mean qs == c.
Proof.
  intros Hlen H. unfold Spec.mean. rewrite (const_total c qs H).
  pose proof (size_pos qs Hlen) as Hsz.
  set (n := Spec.size qs) in *. clearbody n. field. lra.
Qed.

Lemma variance_const (c : Q) (qs : list Q) :
  (0 < List.length qs)%nat -> Forall (fun q => q == c) qs ->
  Stats.sample_variance qs == 0.
Proof.
  intros Hlen H. unfold Stats.sample_variance.
  rewrite total_zero.
  - unfold Qdiv. ring.
  - apply Forall_map. eapply Forall_impl; [|exact H].
    cbv beta. intros q Hq. rewrite Hq, (mean_const c qs Hlen H). ring.
Qed.

Section Flat.

Variable df : DataFrame.
Variable c : Q.
Hypothesis Hflat :
  forall k, (k < List.length df)%nat -> Spec.close_at df k == c.

Lemma trailing_closes_flat (w i : nat) :
  (i < List.length df)%nat -> (w <= i + 1)%nat ->
  Forall (fun q => q == c) (Stats.trailing_closes df w i).
Proof.
  intros Hi Hfull. unfold Stats.trailing_closes. apply Forall_map, Forall_forall.
  intros k Hk. apply in_seq in Hk. apply Hflat. lia.
Qed.

Lemma moving_average_flat (w i : nat) :
  (0 < w)%nat -> (i < List.length df)%nat -> (w <= i + 1)%nat ->
  exists a, nth_error (moving_average df w) i = Some (Fin a) /\ a == c.
Proof.
  intros Hw Hi Hfull.
  destruct (moving_average_full df w i Hw Hi Hfull) as (a & Ha & Ea).
  exists a. split; [exact Ha|]. rewrite Ea.
  apply (mean_const c (Stats.trailing_closes df w i)).
  - unfold Stats.trailing_closes. rewrite length_map, length_seq. exact Hw.
  - now apply trailing_closes_flat.
Qed.

Lemma rsi_flat_series (w i : nat) :
  (0 < w)%nat -> (i < List.length df)%nat ->
  nth_error (relative_strength_index df w) i = Some (Fin 50).
Proof.
  intros Hw Hi. destruct (Nat.lt_ge_cases i w) as [Hshort|Hfull].
  - now apply rsi_short.
  - destruct (roll_flat df w i Hw Hfull Hi) as ((u & Hu & Hu0) & (d & Hd & Hd0)).
    { intros k Hk. rewrite !Hflat by lia. reflexivity. }
    rewrite (rsi_nth df w i _ _ Hu Hd). f_equal. now apply rsi_flat.
Qed.

Hypothesis Hsqrt : forall v, v == 0 -> Qsqrt v == 0.

(** The band block of [score_technical] is skipped at every row. *)
Lemma bands_flat (w : nat) (n : Q) (i : nat) :
  (i < List.length df)%nat ->
  exists b, nth_error (bollinger_bands Qsqrt df w n) i = Some b /\
    notna (lower b) && notna (upper b) && negb (eqb (upper b) (lower b)) = false.
Proof.
  intro Hi.
  assert (Hlen : (i < List.length (closes df))%nat)
    by (unfold closes; now rewrite length_map).
  destruct (Nat.lt_ge_cases (i + 1) w) as [Hshort|Hfull].
  - eexists. split.
    + apply (bollinger_bands_row Qsqrt df w n i NaN _
               (moving_average_short df w i Hi Hshort)
               (rolling_std_nth Qsqrt w w _ i Hlen)).
    + reflexivity.
  - destruct (Nat.lt_ge_cases w 2) as [Hsmall|Hw].
    + destruct w as [|[|w']]; try lia.
      * eexists. split.
        -- apply (bollinger_bands_row Qsqrt df 0 n i _ _
                    (rolling_mean_nth 0 0 _ i Hlen)
                    (rolling_std_nth Qsqrt 0 0 _ i Hlen)).
        -- rewrite window_std_single by (rewrite (length_window _ _ _ Hlen); lia).
           cbn [lower upper]. destruct (window_mean 0 _); reflexivity.
      * eexists. split.
        -- apply (bollinger_bands_row Qsqrt df 1 n i _ _
                    (rolling_mean_nth 1 1 _ i Hlen)
                    (rolling_std_nth Qsqrt 1 1 _ i Hlen)).
        -- rewrite window_std_single by (rewrite (length_window _ _ _ Hlen); lia).
           cbn [lower upper]. destruct (window_mean 1 _); reflexivity.
    + destruct (moving_average_full df w i ltac:(lia) Hi Hfull) as (m & Hm & _).
      destruct (rolling_std_full Qsqrt df w i Hw Hfull Hi) as (v & Hv & Ev & _).
      eexists. split; [apply (bollinger_bands_row Qsqrt df w n i _ _ Hm Hv)|].
      cbn [lower upper mul add sub neg notna eqb andb].
      assert (Hs : Qsqrt v == 0).
      { apply Hsqrt. rewrite Ev.
        apply (variance_const c); [|now apply trailing_closes_flat].
        unfold Stats.trailing_closes. rewrite length_map, length_seq. lia. }
      assert (E : Qeq_bool (m + n * Qsqrt v) (m + - (n * Qsqrt v)) = true).
      { apply Qeq_bool_iff. rewrite Hs. ring. }
      rewrite E. reflexivity.
Qed.

(** X10: on a frame whose closes are all equal (with a square root that
    maps zero to zero) the band block never runs and the RSI block sees the
    neutral 50.  With fewer than 50 rows the score is 0.5; from 50 rows on
    the trend block runs as well, the two averages are equal, the trend
    sub-score is 0 and the score is 0.25. *)
Theorem score_technical_flat :
  df <> [] ->
  exists t, score_technical Qsqrt df = Py.Ok (Fin t) /\
    ((List.length df < 50)%nat -> t == 0.5) /\
    ((50 <= List.length df)%nat -> t == 0.25).
Proof.
  intro Hdf.
  assert (Hlen : (0 < List.length df)%nat)
    by (destruct df; simpl; [congruence|lia]).
  set (i := (List.length df - 1)%nat).
  assert (Hi : (i < List.length df)%nat) by (unfold i; lia).
  destruct (last_rows Qsqrt df Hdf)
    as (latest & ma_short & ma_long & rsi & boll & E1 & E2 & E3 & E4 & E5 & N2 & N4 & N5).
  fold i in N2, N4, N5.
  assert (N3 : nth_error (moving_average df 50) i = Some ma_long).
  { destruct (iloc_last_ok (moving_average df 50)) as (x & Ex & Nx).
    - intro H. apply (f_equal (@List.length cell)) in H.
      rewrite length_moving_average in H. simpl in H. lia.
    - rewrite length_moving_average in Nx. fold i in Nx. congruence. }
  assert (Hrsi : rsi = Fin 50).
  { pose proof (rsi_flat_series 14 i ltac:(lia) Hi) as H. congruence. }
  destruct (bands_flat 20 2 i Hi) as (b & Hb & Hband).
  assert (b = boll) by congruence. subst b.
  unfold score_technical, subscores.
  assert (Hne : empty df = false).
  { clear - Hdf. destruct df; [contradiction|reflexivity]. }
  rewrite Hne.
  rewrite E1, E2, E3, E4, E5. cbn [Py.bind].
  rewrite Hrsi, Hband.
  destruct (Nat.lt_ge_cases (List.length df) 50) as [Hsmall|Hbig].
  - assert (Hlong : ma_long = NaN).
    { pose proof (moving_average_short df 50 i Hi ltac:(unfold i; lia)) as H.
      congruence. }
    rewrite Hlong. cbn [notna]. rewrite andb_false_r.
    eexists. split; [reflexivity|]. split; intro H; [reflexivity|lia].
  - destruct (moving_average_flat 20 i ltac:(lia) Hi ltac:(unfold i; lia))
      as (a & Ha & Ea).
    destruct (moving_average_flat 50 i ltac:(lia) Hi ltac:(unfold i; lia))
      as (a' & Ha' & Ea').
    assert (ma_short = Fin a) by congruence.
    assert (ma_long = Fin a') by congruence. subst ma_short ma_long.
    cbn [notna andb ltb].
    assert (Ecmp : Py.Qltb a' a = false) by (apply Qltb_ge; lra).
    rewrite Ecmp.
    eexists. split; [reflexivity|]. split; intro H; [lia|reflexivity].
Qed.

End Flat.

End FlatSeries.

(** * API keys and the choice of providers

    [ApiKeys] and [ConfigManager.update_api_key] of [config.py],
    [build_provider] of [market_data.py], [build_sentiment_provider] and
    [MockSentiment] of [sentiment.py], and the key lookup of
    [refresh_data] in [app.py].  A [dict] of strings is an association list
    in insertion order; writing the file ([save]) is left out. *)

Module Providers.

Definition dict : Type := list (string * string).

(** [d.get(k)]. *)
Fixpoint get (d : dict) (k : string) : option string :=
  match d with
  | [] => None
  | (k', v) :: rest => if String.eqb k' k then Some v else get rest k
  end.

(** [d[k] = v]: the entry is replaced in place, or appended. *)
Fixpoint set (d : dict) (k v : string) : dict :=
  match d with
  | [] => [(k, v)]
  | (k', v') :: rest =>
      if String.eqb k' k then (k', v) :: rest else (k', v') :: set rest k v
  end.

(** [d.pop(k, None)]. *)
Definition pop (d : dict) (k : string) : dict :=
  filter (fun e => negb (String.eqb (fst e) k)) d.

(** Truth value of a string. *)
Definition nonempty (s : string) : bool :=
  match s with
  | EmptyString => false
  | String _ _ => true
  end.

(** Truth value of an [Optional[str]]. *)
Definition truthy (value : option string) : bool :=
  match value with
  | None => false
  | Some s => nonempty s
  end.

Record ApiKeys : Type := {
  openai : option string;
  market_data : dict;
  sentiment : dict
}.

(** The entry written or removed in one of the two dictionaries. *)
Definition store (d : dict) (service : string) (value : option string) : dict :=
  match value with
  | Some v => if nonempty v then set d service v else pop d service
  | None => pop d service
  end.

Definition update_api_key (keys : ApiKeys) (service : string)
  (value : option string) (category : string) : ApiKeys :=
  if String.eqb category "openai" || String.eqb service "openai" then
    {| openai := value; market_data := market_data keys;
       sentiment := sentiment keys |}
  else if String.eqb category "sentiment" then
    {| openai := openai keys; market_data := market_data keys;
       sentiment := store (sentiment keys) service value |}
  else
    {| openai := openai keys;
       market_data := store (market_data keys) service value;
       sentiment := sentiment keys |}.

Inductive MarketDataProvider : Type :=
| AlphaVantageProvider (api_key : string)
| MockProvider.

Definition build_provider (keys : ApiKeys) : MarketDataProvider :=
  match get (market_data keys) "alpha_vantage" with
  | Some alpha_key =>
      if nonempty alpha_key then AlphaVantageProvider alpha_key
      else MockProvider
  | None => MockProvider
  end.

Inductive SentimentProvider : Type :=
| FinnhubSentiment (api_key : string)
| MockSentiment.

Definition build_sentiment_provider (api_key : option string)
  : SentimentProvider :=
  match api_key with
  | Some k => if nonempty k then FinnhubSentiment k else MockSentiment
  | None => MockSentiment
  end.

(** The argument [refresh_data] passes to [build_sentiment_provider]:
    [sentiment.get("finnhub") if sentiment else None]. *)
Definition finnhub_key (keys : ApiKeys) : option string :=
  match sentiment keys with
  | [] => None
  | _ :: _ => get (sentiment keys) "finnhub"
  end.

(** [MockSentiment.fetch_news]; the warning it logs is left out. *)
Definition mock_fetch_news (symbol : string) : list Sentiment.NewsItem :=
  [{| Sentiment.title := String.append "Sentiment neutre pour " symbol;
      Sentiment.summary :=
        "Configurez une clé API pour obtenir des analyses en temps réel.";
      Sentiment.sentiment := 0;
      Sentiment.source := "mock";
      Sentiment.url := EmptyString |}].

End Providers.

(** * Properties of the key store and the providers *)

Section ProviderFacts.
Import Providers.

Lemma get_set_same (d : dict) (k v : string) : get (set d k v) k = Some v.
Proof.
  induction d as [|[k' v'] d IH]; simpl.
  - now rewrite String.eqb_refl.
  - destruct (String.eqb k' k) eqn:E; simpl; rewrite E; [reflexivity|exact IH].
Qed.

Lemma get_set_other (d : dict) (k k' v : string) :
  k' <> k -> get (set d k v) k' = get d k'.
Proof.
  intro Hne. induction d as [|[k0 v0] d IH]; simpl.
  - assert (E : String.eqb k k' = false) by (apply String.eqb_neq; congruence).
    now rewrite E.
  - destruct (String.eqb k0 k) eqn:E; simpl.
    + apply String.eqb_eq in E. subst k0.
      assert (E' : String.eqb k k' = false) by (apply String.eqb_neq; congruence).
      now rewrite E'.
    + destruct (String.eqb k0 k'); [reflexivity|exact IH].
Qed.

Lemma get_pop_same (d : dict) (k : string) : get (pop d k) k = None.
Proof.
  unfold pop. induction d as [|[k' v'] d IH]; simpl; [reflexivity|].
  destruct (String.eqb k' k) eqn:E; simpl; [exact IH|].
  rewrite E. exact IH.
Qed.

Lemma get_pop_other (d : dict) (k k' : string) :
  k' <> k -> get (pop d k) k' = get d k'.
Proof.
  intro Hne. unfold pop. induction d as [|[k0 v0] d IH]; simpl; [reflexivity|].
  destruct (String.eqb k0 k) eqn:E; simpl.
  - apply String.eqb_eq in E. subst k0.
    assert (E' : String.eqb k k' = false) by (apply String.eqb_neq; congruence).
    rewrite E'. exact IH.
  - destruct (String.eqb k0 k'); [reflexivity|exact IH].
Qed.

(** What a lookup finds after [store]. *)
Lemma get_store_same (d : dict) (k : string) (value : option string) :
  get (store d k value) k = if truthy value then value else None.
Proof.
  unfold store, truthy. destruct value as [v|].
  - destruct (nonempty v); [apply get_set_same|apply get_pop_same].
  - apply get_pop_same.
Qed.

Lemma get_store_other (d : dict) (k k' : string) (value : option string) :
  k' <> k -> get (store d k value) k' = get d k'.
Proof.
  intro Hne. unfold store. destruct value as [v|].
  - destruct (nonempty v); [now apply get_set_other|now apply get_pop_other].
  - now apply get_pop_other.
Qed.

Lemma finnhub_key_get (keys : ApiKeys) :
  finnhub_key keys = get (sentiment keys) "finnhub".
Proof.
  unfold finnhub_key. destruct (sentiment keys); reflexivity.
Qed.

Lemma build_sentiment_provider_truthy (value : option string) :
  build_sentiment_provider (if truthy value then value else None) =
  build_sentiment_provider value.
Proof.
  destruct value as [v|]; [|reflexivity]. simpl.
  destruct (nonempty v) eqn:E; simpl; rewrite ?E; reflexivity.
Qed.

(** X11: storing a key for [alpha_vantage] under any category other than
    [openai] and [sentiment] selects the Alpha Vantage provider with that
    key, and storing [None] or the empty string selects the mock provider;
    a key for another service, and any call routed to the OpenAI key (by
    category or by service name), leaves the market provider as it was.
    None of these calls changes the sentiment key that [refresh_data] reads. *)
Theorem market_key_selects_provider
  (keys : ApiKeys) (service : string) (value : option string)
  (category : string) :
  let keys' := update_api_key keys service value category in
  (category <> "openai"%string -> service <> "openai"%string -> category <> "sentiment"%string ->
   (service = "alpha_vantage"%string ->
    build_provider keys' =
    match value with
    | Some k => if nonempty k then AlphaVantageProvider k else MockProvider
    | None => MockProvider
    end) /\
   (service <> "alpha_vantage"%string -> build_provider keys' = build_provider keys) /\
   finnhub_key keys' = finnhub_key keys /\ openai keys' = openai keys) /\
  (category = "openai"%string \/ service = "openai"%string ->
   build_provider keys' = build_provider keys /\
   finnhub_key keys' = finnhub_key keys /\ openai keys' = value).
Proof.
  intro keys'. subst keys'. unfold update_api_key. split.
  - intros Hc Hs Hc'.
    apply String.eqb_neq in Hc, Hs, Hc'. rewrite Hc, Hs, Hc'. cbn [orb].
    unfold build_provider. cbn [market_data sentiment openai].
    repeat split.
    + intros ->. rewrite get_store_same.
      destruct value as [v|]; [|reflexivity]. simpl.
      destruct (nonempty v) eqn:E; [rewrite E|]; reflexivity.
    + intro Hne. rewrite get_store_other by congruence. reflexivity.
  - intros H.
    assert (E : String.eqb category "openai" || String.eqb service "openai" = true).
    { apply orb_true_iff. destruct H as [->| ->]; [left|right];
        apply String.eqb_refl. }
    rewrite E. repeat split.
Qed.

(** X12: after [update_api_key("finnhub", value, category="sentiment")] the
    provider [refresh_data] builds is the one [build_sentiment_provider]
    gives for [value] itself: Finnhub with a non-empty key, the mock
    otherwise; the market provider is untouched.  The news of the mock
    provider aggregate to 0.5 for every symbol. *)
Theorem sentiment_key_selects_provider
  (keys : ApiKeys) (value : option string) :
  let keys' := update_api_key keys "finnhub" value "sentiment" in
  build_sentiment_provider (finnhub_key keys') = build_sentiment_provider value /\
  (truthy value = false ->
   build_sentiment_provider (finnhub_key keys') = MockSentiment) /\
  build_provider keys' = build_provider keys /\
  (forall symbol : string,
     exists v, Sentiment.aggregate_sentiment (mock_fetch_news symbol) = Py.Ok v /\
               v == 0.5).
Proof.
  intro keys'. subst keys'.
  assert (Hprov : build_sentiment_provider
                    (finnhub_key (update_api_key keys "finnhub" value "sentiment"))
                  = build_sentiment_provider value).
  { rewrite finnhub_key_get. unfold update_api_key. cbn [String.eqb orb].
    cbn. rewrite get_store_same. apply build_sentiment_provider_truthy. }
  split; [exact Hprov|]. split; [|split].
  - intro Hfalse. rewrite Hprov.
    destruct value as [v|]; [|reflexivity]. simpl in *. now rewrite Hfalse.
  - reflexivity.
  - intro symbol. eexists. split; [reflexivity|]. reflexivity.
Qed.

End ProviderFacts.

(** * market_data.py: ordering of the price history and the mock provider

    A timestamp is a day number.  [sorted] is stable; it is modelled by a
    stable insertion sort. *)

Module MarketData.
Import Technical.

(** Insertion before the first point that is not earlier. *)
Fixpoint insert (p : PricePoint) (l : list PricePoint) : list PricePoint :=
  match l with
  | [] => [p]
  | q :: rest =>
      if (timestamp p <=? timestamp q)%Z then p :: q :: rest
      else q :: insert p rest
  end.

(** [list(sorted(price_points, key=lambda p: p.timestamp))]. *)
Definition sorted_by_timestamp (points : list PricePoint) : list PricePoint :=
  fold_right insert [] points.

(** The point [MockProvider] makes for [day] days before [today]. *)
Definition mock_point (today : Z) (day : nat) : PricePoint :=
  let close := 100 + inject_Z (Z.of_nat day) * 0.5 in
  {| timestamp := today - Z.of_nat day;
     open := close - 0.5;
     high := close + 1;
     low := close - 1;
     close := close;
     volume := 1000 + inject_Z (Z.of_nat day) * 10 |}.

(** [MockProvider.fetch_price_history]; [today] is the date of the call. *)
Definition mock_fetch_price_history (today : Z) : list PricePoint :=
  sorted_by_timestamp (map (mock_point today) (seq 0 60)).

(** What [to_dataframe] does: it returns a frame, or [set_index] raises
    [KeyError]. *)
Inductive frame_result : Type :=
| Frame (df : DataFrame)
| KeyError.

(** [to_dataframe]: one row per point, [set_index("timestamp")], then
    [df.sort_index()].  A frame built from no row has no column, so
    [set_index] raises [KeyError].  [sort_index] leaves an index that is
    already ascending as it is, which is the case of the lists the
    providers return; rows with the same timestamp are kept here in their
    order of arrival, and nothing below depends on their order. *)
Definition to_dataframe (points : list PricePoint) : frame_result :=
  match points with
  | [] => KeyError
  | _ :: _ => Frame (sorted_by_timestamp points)
  end.

End MarketData.

(** * Properties of the price history *)

Section MarketDataFacts.
Import Technical MarketData.

Definition earlier (p q : PricePoint) : Prop := (timestamp p <= timestamp q)%Z.

Lemma insert_perm (p : PricePoint) (l : list PricePoint) :
  Permutation (p :: l) (insert p l).
Proof.
  induction l as [|q l IH]; simpl; [reflexivity|].
  destruct (timestamp p <=? timestamp q)%Z; [reflexivity|].
  rewrite perm_swap. now constructor.
Qed.

Lemma insert_sorted (p : PricePoint) (l : list PricePoint) :
  Sorted earlier l -> Sorted earlier (insert p l).
Proof.
  induction 1 as [|q l Hl IH Hhd]; simpl.
  - repeat constructor.
  - destruct (timestamp p <=? timestamp q)%Z eqn:E.
    + apply Z.leb_le in E. repeat constructor; assumption.
    + apply Z.leb_gt in E. constructor; [exact IH|].
      destruct l as [|q' l']; simpl.
      * constructor. unfold earlier. lia.
      * inversion Hhd; subst.
        destruct (timestamp p <=? timestamp q')%Z; constructor;
          unfold earlier in *; lia.
Qed.

Lemma sorted_by_timestamp_perm (points : list PricePoint) :
  Permutation points (sorted_by_timestamp points).
Proof.
  unfold sorted_by_timestamp. induction points as [|p l IH]; simpl.
  - constructor.
  - rewrite <- insert_perm. now constructor.
Qed.

Lemma sorted_by_timestamp_sorted (points : list PricePoint) :
  Sorted earlier (sorted_by_timestamp points).
Proof.
  unfold sorted_by_timestamp. induction points as [|p l IH]; simpl.
  - constructor.
  - apply insert_sorted, IH.
Qed.

(** Sorting a sorted history changes nothing. *)
Lemma sorted_by_timestamp_fixed (points : list PricePoint) :
  Sorted earlier points -> sorted_by_timestamp points = points.
Proof.
  unfold sorted_by_timestamp. induction 1 as [|p l Hl IH Hhd]; simpl.
  - reflexivity.
  - rewrite IH. destruct Hhd as [|q l' Hpq]; simpl; [reflexivity|].
    unfold earlier in Hpq. apply Z.leb_le in Hpq. now rewrite Hpq.
Qed.

(** Building the frame of a non-empty ascending history returns it as it
    is. *)
Lemma to_dataframe_sorted (points : list PricePoint) :
  Sorted earlier points -> points <> [] -> to_dataframe points = Frame points.
Proof.
  intros Hs Hne. destruct points as [|p l]; [congruence|].
  unfold to_dataframe. now rewrite sorted_by_timestamp_fixed.
Qed.

Lemma sorted_by_timestamp_nonempty (points : list PricePoint) :
  points <> [] -> sorted_by_timestamp points <> [].
Proof.
  intros Hne E. pose proof (sorted_by_timestamp_perm points) as H.
  rewrite E in H. apply Permutation_sym, Permutation_nil in H. congruence.
Qed.

(** The last point of a non-empty ascending history is a latest one. *)
Lemma sorted_last (l : list PricePoint) :
  Sorted earlier l -> l <> [] ->
  exists latest rest, rev l = latest :: rest /\ In latest l /\
    forall p, In p l -> earlier p latest.
Proof.
  intros Hs Hne.
  assert (Htrans : Relations_1.Transitive earlier).
  { intros x y z Hxy Hyz. unfold earlier in *. lia. }
  apply (Sorted_StronglySorted Htrans) in Hs.
  induction Hs as [|a l Hl IH Ha]; [congruence|].
  destruct l as [|b l'].
  - exists a, []. split; [reflexivity|]. split; [now left|].
    intros p [<-|[]]. unfold earlier. lia.
  - destruct (IH ltac:(discriminate)) as (latest & rest & Er & Hin & Hmax).
    exists latest, (rest ++ [a]).
    split; [change (rev (a :: b :: l')) with (rev (b :: l') ++ [a]);
            now rewrite Er|].
    split; [now right|].
    intros p [<-|Hp]; [|now apply Hmax].
    rewrite Forall_forall in Ha. now apply Ha.
Qed.

Lemma insert_last (p : PricePoint) (l : list PricePoint) :
  Forall (fun q => (timestamp q < timestamp p)%Z) l -> insert p l = l ++ [p].
Proof.
  induction 1 as [|q l Hq _ IH]; simpl; [reflexivity|].
  assert (E : (timestamp p <=? timestamp q)%Z = false) by (apply Z.leb_gt; lia).
  now rewrite E, IH.
Qed.

(** A history fetched latest first comes out reversed. *)
Lemma sorted_by_timestamp_rev (points : list PricePoint) :
  StronglySorted (fun a b => (timestamp b < timestamp a)%Z) points ->
  sorted_by_timestamp points = rev points.
Proof.
  unfold sorted_by_timestamp. induction 1 as [|p l _ IH Hp]; simpl.
  - reflexivity.
  - rewrite IH. apply insert_last. now apply Forall_rev.
Qed.

Lemma map_seq_StronglySorted {A : Type} (R : A -> A -> Prop) (f : nat -> A)
  (a n : nat) :
  (forall i j, (a <= i < j)%nat -> (j < a + n)%nat -> R (f i) (f j)) ->
  StronglySorted R (map f (seq a n)).
Proof.
  revert a. induction n as [|n IH]; intros a H; simpl; constructor.
  - apply IH. intros i j Hij Hj. apply H; lia.
  - apply Forall_map, Forall_forall. intros j Hj. apply in_seq in Hj.
    apply H; lia.
Qed.

Lemma mock_rows (today : Z) :
  mock_fetch_price_history today =
  map (fun i => mock_point today (59 - i)) (seq 0 60).
Proof.
  unfold mock_fetch_price_history.
  rewrite sorted_by_timestamp_rev.
  - rewrite <- map_rev.
    change (rev (seq 0 60)) with (map (fun i => 59 - i)%nat (seq 0 60)).
    now rewrite map_map.
  - apply map_seq_StronglySorted. intros i j Hij Hj.
    unfold mock_point. cbn [timestamp]. lia.
Qed.

Lemma mock_close_at (today : Z) (k : nat) :
  (k < 60)%nat ->
  Spec.close_at (mock_fetch_price_history today) k =
  100 + inject_Z (Z.of_nat (59 - k)) * 0.5.
Proof.
  intro Hk. unfold Spec.close_at. rewrite mock_rows.
  rewrite (nth_error_map_seq (fun i => mock_point today (59 - i)) 60 k Hk).
  reflexivity.
Qed.

(** X14: whatever the date, the mock provider returns 60 daily points in
    ascending order whose closes fall by 0.5 a day from 129.5 to 100 (the
    close grows with the age of the point); [to_dataframe] keeps them as
    they are, and the RSI of that frame is 0 from row 14 on. *)
Theorem mock_history_falls (today : Z) :
  let points := mock_fetch_price_history today in
  points = map (fun i => mock_point today (59 - i)) (seq 0 60) /\
  to_dataframe points = Frame points /\
  (forall k, (k < 59)%nat ->
     Spec.close_at points (S k) == Spec.close_at points k - 0.5) /\
  Spec.close_at points 0 == 129.5 /\ Spec.close_at points 59 == 100 /\
  (forall i, (14 <= i < 60)%nat ->
     exists r, nth_error (relative_strength_index points 14) i = Some (Fin r) /\
               r == 0).
Proof.
  intro points. subst points.
  assert (Hstep : forall k, (k < 59)%nat ->
            Spec.close_at (mock_fetch_price_history today) (S k)
            == Spec.close_at (mock_fetch_price_history today) k - 0.5).
  { intros k Hk. rewrite !mock_close_at by lia.
    replace (59 - k)%nat with (S (59 - S k)) by lia.
    rewrite Nat2Z.inj_succ, <- Z.add_1_l, inject_Z_plus.
    change (inject_Z 1) with 1. ring. }
  assert (Hlen : List.length (mock_fetch_price_history today) = 60%nat).
  { rewrite mock_rows, length_map, length_seq. reflexivity. }
  split; [apply mock_rows|]. split; [|split; [exact Hstep|split; [|split]]].
  - apply to_dataframe_sorted.
    + apply sorted_by_timestamp_sorted.
    + intro E. rewrite E in Hlen. discriminate.
  - rewrite mock_close_at by lia. reflexivity.
  - rewrite mock_close_at by lia. reflexivity.
  - intros i Hi.
    destruct (roll_losses (mock_fetch_price_history today) 14 i)
      as ((u & Hu & Hu0) & (d & Hd & Hd0)); try lia.
    { intros k Hk. rewrite (Hstep k) by lia. lra. }
    destruct (rsi_all_losses u d Hu0 Hd0) as (r & Er & Hr).
    exists r. split; [|exact Hr].
    rewrite (rsi_nth _ 14 i _ _ Hu Hd). f_equal. exact Er.
Qed.

End MarketDataFacts.

(** * Which blocks of the technical score run *)

Section ScoreBlocks.
Import Technical.

Variable Qsqrt : Q -> Q.

(** X15: the technical score returns for every frame, never raises, and is
    a finite value between 0 and 1; on a frame without rows it is 0.5. *)
Theorem score_technical_bounded (df : DataFrame) :
  (exists t, score_technical Qsqrt df = Py.Ok (Fin t) /\ 0 <= t <= 1) /\
  (df = [] -> score_technical Qsqrt df = Py.Ok (Fin 0.5)).
Proof.
  split.
  - apply score_technical_range.
  - intros ->. reflexivity.
Qed.

(** X16: the weight of [score_technical], the number of sub-scores it
    averages, is 1, 2 or 3.  The trend block runs exactly when the frame has
    at least 50 rows; the band block needs at least 20 rows; so the weight is
    1 below 20 rows, at most 2 below 50 rows and at least 2 from 50 rows on. *)
Theorem subscores_blocks (df : DataFrame) :
  df <> [] ->
  exists score weight,
    subscores Qsqrt df = Py.Ok (score, weight) /\
    (weight == 1 \/ weight == 2 \/ weight == 3) /\
    ((List.length df < 20)%nat -> weight == 1) /\
    ((List.length df < 50)%nat -> weight <= 2) /\
    ((50 <= List.length df)%nat -> 2 <= weight).
Proof.
  intro Hdf.
  assert (Hlen : (0 < List.length df)%nat)
    by (destruct df; simpl; [congruence|lia]).
  set (i := (List.length df - 1)%nat).
  assert (Hi : (i < List.length df)%nat) by (unfold i; lia).
  destruct (last_rows Qsqrt df Hdf)
    as (latest & ma_short & ma_long & rsi & boll & E1 & E2 & E3 & E4 & E5 & N2 & N4 & N5).
  fold i in N2, N4, N5.
  assert (N3 : nth_error (moving_average df 50) i = Some ma_long).
  { destruct (iloc_last_ok (moving_average df 50)) as (x & Ex & Nx).
    - intro H. apply (f_equal (@List.length cell)) in H.
      rewrite length_moving_average in H. simpl in H. lia.
    - rewrite length_moving_average in Nx. fold i in Nx. congruence. }
  assert (Hrsi : notna rsi = true).
  { pose proof (fillna_notna _ _ _ _ N4) as H. destruct rsi; simpl; congruence. }
  assert (Htrend : notna ma_short && notna ma_long
                   = (50 <=? List.length df)%nat).
  { destruct (Nat.lt_ge_cases (List.length df) 50) as [Hsmall|Hbig].
    - pose proof (moving_average_short df 50 i Hi ltac:(unfold i; lia)) as H.
      assert (ma_long = NaN) by congruence. subst ma_long.
      cbn [notna]. rewrite andb_false_r. symmetry. apply Nat.leb_gt. exact Hsmall.
    - destruct (moving_average_full df 20 i ltac:(lia) Hi ltac:(unfold i; lia))
        as (a & Ha & _).
      destruct (moving_average_full df 50 i ltac:(lia) Hi ltac:(unfold i; lia))
        as (a' & Ha' & _).
      assert (ma_short = Fin a) by congruence.
      assert (ma_long = Fin a') by congruence. subst.
      symmetry. apply Nat.leb_le. exact Hbig. }
  assert (Hband : (List.length df < 20)%nat ->
            notna (lower boll) && notna (upper boll)
            && negb (eqb (upper boll) (lower boll)) = false).
  { intro Hsmall.
    destruct (bollinger_bands_nth Qsqrt _ _ _ _ _ N5) as (Hm & spread & _ & Hl).
    rewrite (moving_average_short df 20 i Hi ltac:(unfold i; lia)) in Hm.
    inversion Hm as [Hm']. rewrite Hl, <- Hm'. reflexivity. }
  unfold subscores. rewrite E1, E2, E3, E4, E5. cbn [Py.bind].
  rewrite Hrsi, Htrend.
  destruct (50 <=? List.length df)%nat eqn:E50;
    [apply Nat.leb_le in E50|apply Nat.leb_gt in E50];
    destruct (notna (lower boll) && notna (upper boll)
              && negb (eqb (upper boll) (lower boll))) eqn:Eb;
    do 2 eexists; (split; [reflexivity|]).
  - split; [right; right; lra|]. repeat split; intro; try lia; lra.
  - split; [right; left; lra|]. repeat split; intro; try lia; lra.
  - split; [right; left; lra|]. repeat split; intro Hn.
    + discriminate (Hband Hn).
    + lra.
    + lia.
  - split; [left; lra|]. repeat split; intro; try lia; lra.
Qed.

End ScoreBlocks.

(** * app.py: the position [refresh_data] shows *)

Module App.
Import Technical.

(** The prices of [refresh_data] once the provider has returned its points:
    the frame [to_dataframe] builds, or, when it raises, the frame without
    rows of the handler. *)
Definition refresh_prices (price_points : list PricePoint) : DataFrame :=
  match MarketData.to_dataframe price_points with
  | MarketData.Frame df => df
  | MarketData.KeyError => []
  end.

(** [prices["close"].iloc[-1] if not prices.empty else 100.0]. *)
Definition entry_price (prices : DataFrame) : Q :=
  match rev prices with
  | [] => 100
  | latest :: _ => close latest
  end.

(** The position of [refresh_data]: [None] when the sizer raises. *)
Definition refresh_position (prices : DataFrame) (risk : Config.RiskConfig)
  : option Risk.PositionSizingResult :=
  match Risk.compute_position_size 10000 (entry_price prices) risk with
  | Py.Ok position => Some position
  | Py.Raise _ => None
  end.

End App.

Section AppFacts.
Import Technical App.

Lemma entry_price_positive (prices : DataFrame) :
  Forall (fun p => 0 < close p) prices -> 0 < entry_price prices.
Proof.
  intro H. unfold entry_price.
  apply Forall_rev in H. destruct (rev prices) as [|latest l]; [lra|].
  now inversion H.
Qed.

(** X13: from the points a provider fetched, in whatever order, to the
    price [refresh_data] sizes the position at.  The provider returns them
    sorted by timestamp.  Without a point [to_dataframe] raises [KeyError],
    [refresh_data] goes on with a frame without rows and the entry price is
    100.  Otherwise [to_dataframe] returns the sorted points as they are,
    in ascending order and each as often as it was fetched, and the entry
    price is the close of a point whose timestamp is the latest of all. *)
Theorem price_history_sorted (points : list PricePoint) :
  let price_points := MarketData.sorted_by_timestamp points in
  (points = [] ->
   MarketData.to_dataframe price_points = MarketData.KeyError /\
   refresh_prices price_points = [] /\
   entry_price (refresh_prices price_points) = 100) /\
  (points <> [] ->
   MarketData.to_dataframe price_points = MarketData.Frame price_points /\
   refresh_prices price_points = price_points /\
   Sorted earlier price_points /\
   Permutation points price_points /\
   exists latest,
     In latest points /\
     (forall p, In p points -> (timestamp p <= timestamp latest)%Z) /\
     entry_price (refresh_prices price_points) = close latest).
Proof.
  intro price_points. split.
  - intros ->. repeat split; reflexivity.
  - intro Hne.
    pose proof (sorted_by_timestamp_sorted points) as Hs.
    pose proof (sorted_by_timestamp_perm points) as Hp.
    pose proof (sorted_by_timestamp_nonempty points Hne) as Hne'.
    fold price_points in Hs, Hp, Hne'.
    assert (Hdf : MarketData.to_dataframe price_points
                  = MarketData.Frame price_points)
      by now apply to_dataframe_sorted.
    assert (Hprices : refresh_prices price_points = price_points)
      by (unfold refresh_prices; now rewrite Hdf).
    split; [exact Hdf|]. split; [exact Hprices|].
    split; [exact Hs|]. split; [exact Hp|].
    destruct (sorted_last price_points Hs Hne')
      as (latest & rest & Er & Hin & Hmax).
    exists latest. split; [|split].
    + apply (Permutation_in latest (Permutation_sym Hp) Hin).
    + intros p Hpin. apply Hmax. apply (Permutation_in p Hp Hpin).
    + rewrite Hprices. unfold entry_price. now rewrite Er.
Qed.

(** X17: the position of [refresh_data] for positive closes (or no price
    row, where the entry price is 100).  No position is shown exactly when
    the risk per unit at the entry price is at most zero, the guard of the
    sizer being the only thing that can raise; that is the case for every
    stop-loss fraction of at most zero.  With a positive risk per unit the
    position is the one the sizer returns for a capital of 10000 at the last
    close, and its size is at most 10000 over that close. *)
Theorem refresh_position_shown (prices : DataFrame) (risk : Config.RiskConfig) :
  Forall (fun p => 0 < close p) prices ->
  let price := entry_price prices in
  (refresh_position prices risk = None <->
   price - price * (1 - Config.stop_loss_pct risk) <= 0) /\
  (Config.stop_loss_pct risk <= 0 -> refresh_position prices risk = None) /\
  (0 < price - price * (1 - Config.stop_loss_pct risk) ->
   exists position,
     refresh_position prices risk = Some position /\
     Risk.compute_position_size 10000 price risk = Py.Ok position /\
     Risk.position_size position <= 10000 / price) /\
  (prices = [] -> price = 100).
Proof.
  intros Hpos price. pose proof (entry_price_positive prices Hpos) as Hprice.
  fold price in Hprice.
  assert (Hiff : refresh_position prices risk = None <->
                 price - price * (1 - Config.stop_loss_pct risk) <= 0).
  { unfold refresh_position. fold price.
    rewrite <- compute_position_size_guard with (capital := 10000).
    destruct (Risk.compute_position_size 10000 price risk) as [r|e] eqn:E.
    - split; discriminate.
    - split; [intros _|reflexivity].
      destruct (Qlt_le_dec 0 (price - price * (1 - Config.stop_loss_pct risk)))
        as [Hrisk|Hrisk].
      + destruct (compute_position_size_returns 10000 price risk Hrisk
                    ltac:(lra)) as (r & Hr & _).
        congruence.
      + apply (compute_position_size_guard 10000) in Hrisk. congruence. }
  split; [exact Hiff|]. split; [|split].
  - intro Hstop. apply Hiff. now apply (risk_per_unit_sign _ _ Hprice).
  - intro Hrisk.
    destruct (compute_position_size_returns 10000 price risk Hrisk ltac:(lra))
      as (r & Hr & _ & _ & _ & Hps).
    exists r. unfold refresh_position. fold price. rewrite Hr.
    repeat split. rewrite Hps. apply Q.le_min_r.
  - intros ->. reflexivity.
Qed.

End AppFacts.

(** * Worked examples for the further properties *)

Section MoreWitnesses.
Import Technical Examples.

Lemma position_within_budgets_witness :
  exists r, Risk.compute_position_size 10000 100 (Config.risk default_config)
            = Py.Ok r /\
            0 <= Risk.position_size r <= 10000 / 100.
Proof.
  destruct (position_within_budgets 10000 100 (Config.risk default_config))
    as (r & Hr & _ & _ & _ & Hsize & Hcap & _);
    try (simpl; lra).
  exists r. split; [exact Hr|]. split; assumption.
Defined.

Lemma composite_after_update_weights_witness :
  exists res c,
    Scoring.compute_scores Qsqrt_approx
      {| Config.weights :=
           {| Config.technical := 0.5; Config.fundamental := 0.3;
              Config.sentiment := 0.2 |};
         Config.risk := Config.risk default_config |}
      (frame (rising 10)) derived_fundamentals neutral_news = Py.Ok res /\
    Scoring.composite_score res = Fin c /\
    0 <= c <= 1 + (1 # 1000000).
Proof.
  destruct (composite_after_update_weights Qsqrt_approx default_config
              {| Config.weights :=
                   {| Config.technical := 0.5; Config.fundamental := 0.3;
                      Config.sentiment := 0.2 |};
                 Config.risk := Config.risk default_config |}
              0.5 0.3 0.2 (frame (rising 10)) derived_fundamentals neutral_news
              eq_refl)
    as (res & c & E & Hc & _ & Hnews).
  exists res, c. split; [exact E|]. split; [exact Hc|].
  apply Hnews. repeat constructor; simpl; lra.
Defined.

Lemma sizing_after_update_risk_witness :
  Risk.compute_position_size 10000 100
    {| Config.max_position_size_pct := 0.05; Config.max_daily_loss_pct := 0.02;
       Config.stop_loss_pct := 0; Config.take_profit_pct := 0.06 |}
  = Py.Raise Py.ValueError.
Proof.
  apply (proj1 (sizing_after_update_risk default_config
                  {| Config.weights := Config.weights default_config;
                     Config.risk :=
                       {| Config.max_position_size_pct := 0.05;
                          Config.max_daily_loss_pct := 0.02;
                          Config.stop_loss_pct := 0;
                          Config.take_profit_pct := 0.06 |} |}
                  {| ConfigManager.new_max_position_size_pct := None;
                     ConfigManager.new_max_daily_loss_pct := None;
                     ConfigManager.new_stop_loss_pct := Some 0;
                     ConfigManager.new_take_profit_pct := None |}
                  10000 100 eq_refl)).
  reflexivity.
Defined.

Lemma rsi_bounded_witness :
  exists r, nth_error (relative_strength_index (frame (rising 17)) 14) 15
            = Some (Fin r) /\ 0 <= r <= 100.
Proof.
  apply (rsi_bounded (frame (rising 17)) 14 15). simpl. lia.
Defined.

Definition falling : list Q :=
  [20; 19; 18; 17; 16; 15; 14; 13; 12; 11; 10; 9; 8; 7; 6; 5].

Lemma rsi_after_losses_witness :
  exists r, nth_error (relative_strength_index (frame falling) 14) 15
            = Some (Fin r) /\ r == 0.
Proof.
  destruct (rsi_after_losses (frame falling) 14 15) as (_ & _ & H).
  - lia.
  - lia.
  - simpl. lia.
  - intros k Hk.
    do 15 (destruct k as [|k]; [try lia; vm_compute; reflexivity|]). lia.
  - exact H.
Defined.

Lemma bollinger_bands_rows_witness :
  exists m v u l,
    nth_error (bollinger_bands Qsqrt_approx (frame [1; 2; 3; 4; 6]) 3 2) 4 =
    Some {| ma := Fin m; upper := Fin u; lower := Fin l |} /\
    m == 13 / 3 /\ v == 7 / 3 /\ u + l == 2 * m.
Proof.
  destruct (proj2 (proj2 (bollinger_bands_rows Qsqrt_approx
                            (frame [1; 2; 3; 4; 6]) 3 2 4 ltac:(simpl; lia)))
              ltac:(lia) ltac:(lia))
    as (m & v & u & l & E & Hm & Hv & _ & Hu & Hl & _).
  exists m, v, u, l. split; [exact E|].
  split; [rewrite Hm; vm_compute; reflexivity|].
  split; [rewrite Hv; vm_compute; reflexivity|].
  rewrite Hu, Hl. ring.
Defined.

Lemma Qsqrt_approx_zero (v : Q) : v == 0 -> Qsqrt_approx v == 0.
Proof.
  intro H. unfold Qsqrt_approx. apply Qeq_bool_iff in H. rewrite H.
  reflexivity.
Defined.

Lemma score_technical_flat_witness :
  exists t, score_technical Qsqrt_approx (frame (repeat 7 50)) = Py.Ok (Fin t) /\
            t == 0.25.
Proof.
  destruct (score_technical_flat Qsqrt_approx (frame (repeat 7 50)) 7)
    as (t & E & _ & H).
  - intros k Hk.
    do 50 (destruct k as [|k]; [reflexivity|]). simpl in Hk. lia.
  - exact Qsqrt_approx_zero.
  - discriminate.
  - exists t. split; [exact E|]. apply H. simpl. lia.
Defined.

Lemma subscores_blocks_witness :
  exists score weight,
    subscores Qsqrt_approx (frame (rising 10)) = Py.Ok (score, weight) /\
    weight == 1.
Proof.
  destruct (subscores_blocks Qsqrt_approx (frame (rising 10)) ltac:(discriminate))
    as (score & weight & E & _ & H & _).
  exists score, weight. split; [exact E|]. apply H. simpl. lia.
Defined.

Lemma refresh_position_shown_witness :
  exists position,
    App.refresh_position (frame [99; 101]) (Config.risk default_config)
    = Some position /\
    Risk.position_size position <= 10000 / 101.
Proof.
  destruct (refresh_position_shown (frame [99; 101]) (Config.risk default_config))
    as (_ & _ & H & _).
  - repeat constructor; simpl; lra.
  - destruct (H ltac:(vm_compute; reflexivity)) as (position & E & _ & Hsize).
    exists position. split; [exact E|exact Hsize].
Defined.

End MoreWitnesses.

(** * ai.py: the text of a recommendation

    What [get_recommendation] returns for the output of a response; the call
    to the service is left out. *)

Module AI.

Record Content : Type := {
  content_type : string;
  text : string
}.

Record OutputItem : Type := {
  item_type : string;
  content : list Content
}.

(** The inner loop: the texts of the contents of type [text], appended. *)
Definition append_texts (parts : list string) (contents : list Content)
  : list string :=
  fold_left
    (fun acc c =>
       if String.eqb (content_type c) "text" then acc ++ [text c] else acc)
    contents parts.

(** The outer loop over the items of type [message]. *)
Definition text_parts (output : list OutputItem) : list string :=
  fold_left
    (fun acc item =>
       if String.eqb (item_type item) "message"
       then append_texts acc (content item) else acc)
    output [].

Definition newline : string := String (Ascii.ascii_of_nat 10) EmptyString.

(** ["\n".join(text_parts)]. *)
Definition recommendation (output : list OutputItem) : string :=
  String.concat newline (text_parts output).

End AI.

Section AIFacts.
Import AI.

(** The texts one item contributes. *)
Definition texts_of (item : OutputItem) : list string :=
  if String.eqb (item_type item) "message" then
    map text (filter (fun c => String.eqb (content_type c) "text") (content item))
  else [].

Lemma append_texts_app (parts : list string) (contents : list Content) :
  append_texts parts contents =
  parts ++ map text (filter (fun c => String.eqb (content_type c) "text") contents).
Proof.
  unfold append_texts. revert parts.
  induction contents as [|c cs IH]; intro parts; simpl.
  - now rewrite app_nil_r.
  - destruct (String.eqb (content_type c) "text"); rewrite IH; simpl.
    + now rewrite <- app_assoc.
    + reflexivity.
Qed.

Lemma text_parts_from (acc : list string) (output : list OutputItem) :
  fold_left
    (fun acc item =>
       if String.eqb (item_type item) "message"
       then append_texts acc (content item) else acc)
    output acc
  = acc ++ flat_map texts_of output.
Proof.
  revert acc. induction output as [|item rest IH]; intro acc; simpl.
  - now rewrite app_nil_r.
  - rewrite IH. unfold texts_of at 2.
    destruct (String.eqb (item_type item) "message").
    + now rewrite append_texts_app, <- app_assoc.
    + reflexivity.
Qed.

(** X18: the two loops of [get_recommendation] collect, in order, the texts
    of the [text] contents of the [message] items: the parts of two outputs
    one after the other are the parts of the first followed by those of the
    second, an item of another type can be dropped without changing the
    result, and an output without a [message] item gives the empty string. *)
Theorem recommendation_parts :
  (forall output, text_parts output = flat_map texts_of output) /\
  (forall a b, text_parts (a ++ b) = text_parts a ++ text_parts b) /\
  (forall a b item,
     item_type item <> "message"%string ->
     recommendation (a ++ item :: b) = recommendation (a ++ b)) /\
  (forall output,
     Forall (fun item => item_type item <> "message"%string) output ->
     recommendation output = EmptyString).
Proof.
  assert (Hflat : forall output, text_parts output = flat_map texts_of output).
  { intro output. unfold text_parts. now rewrite text_parts_from. }
  assert (Hskip : forall item, item_type item <> "message"%string ->
                               texts_of item = []).
  { intros item Hne. unfold texts_of. apply String.eqb_neq in Hne.
    now rewrite Hne. }
  split; [exact Hflat|]. split; [|split].
  - intros a b. now rewrite !Hflat, flat_map_app.
  - intros a b item Hne. unfold recommendation.
    rewrite !Hflat, !flat_map_app. cbn [flat_map].
    now rewrite (Hskip item Hne).
  - intros output Hall. unfold recommendation. rewrite Hflat.
    replace (flat_map texts_of output) with (@nil string); [reflexivity|].
    induction Hall as [|item rest Hne _ IH]; [reflexivity|].
    cbn [flat_map]. now rewrite (Hskip item Hne), <- IH.
Qed.

End AIFacts.
